(** * pylsodar: the stepping driver of [odeintr] (lsodar.py)

    A shallow embedding of [lsodar.odeintr], the Python driver that calls the
    ODEPACK routine DLSODAR repeatedly, and theorems about its control flow:
    tolerance checking, task mode selection, the critical-time cursor, the
    recording of output points, root events, failure handling and the shape
    of the returned tuple.

    Conventions of the embedding
    - Python floats are IEEE binary64 values: Rocq's primitive [float], with
      [==], [<] and [min] as Python evaluates them.
    - Python ints are [Z]; list indices and cursors that the code only ever
      increments from 0 are [nat].  The option values written into the
      [int32] array [iwork] are kept as given.
    - The numerical solver [_lsodar.dlsodar] is an external collaborator: an
      arbitrary function of the calls made so far and of the present call.
    - [print] and the solver calls are effects on an explicit [world];
      exceptions are results of the [Py] monad. *)

From Stdlib Require Import PrimFloat.
From stdpp Require Import gmap strings list pretty.

Local Open Scope string_scope.
Local Open Scope list_scope.
Local Open Scope Z_scope.

(** ** Python values *)

(** Opaque reference to a caller-supplied Python object (a callable or an
    extra argument), identified by name. *)
Definition pyref := string.

(** A tolerance argument: [None], a scalar, or a sequence ([len] raises
    [TypeError] on the first two). *)
Inductive tol :=
| TolNone
| TolScalar (x : float)
| TolSeq (xs : list float).

(** Entries of [info_dict]: lists of workspace numbers, or the message. *)
Inductive num :=
| NumF (x : float)
| NumI (z : Z).

Inductive pyval :=
| VList (l : list num)
| VStr (s : string).

Inductive exn :=
| ValueError (msg : string)
| NameError (name : string)
| IndexError
| KeyError (key : string)
| TypeError
| AttributeError.

(** The wrappers built at the top of [odeintr]. *)
Inductive fwrap := UseFunc (f : pyref) (extra : list pyref).
Inductive gwrap := UseG (g : pyref) (extra : list pyref) | IdentityG.
Inductive jwrap := UseJac (j : pyref) (extra : list pyref) | IdentityJ.

(** ** The solver interface *)

(** Positional arguments of [_lsodar.dlsodar], in call order. *)
Record call := {
  c_f : fwrap;
  c_y0 : list float;
  c_t0 : float;
  c_tout : float;
  c_itol : Z;
  c_rtol : tol;
  c_atol : tol;
  c_itask : Z;
  c_istate : Z;
  c_rwork : list float;
  c_iwork : list Z;
  c_jac : jwrap;
  c_jt : Z;
  c_g : gwrap;
  c_ng : nat
}.

(** What a call hands back: [y, treached, istate, jroot], and the two work
    arrays, which the solver updates in place. *)
Record reply := {
  r_y : list float;
  r_t : float;
  r_istate : Z;
  r_jroot : list Z;
  r_rwork : list float;
  r_iwork : list Z
}.

(** ** Effects *)

Record world := {
  console : list string;
  calls : list call
}.

Definition world0 : world := {| console := []; calls := [] |}.

Inductive res (A : Type) :=
| Ok (a : A)
| Raise (e : exn)
| OutOfFuel.
Arguments Ok {A} a.
Arguments Raise {A} e.
Arguments OutOfFuel {A}.

Definition Py (A : Type) : Type := world -> res A * world.

Definition ret {A} (a : A) : Py A := fun w => (Ok a, w).

Definition bind {A B} (m : Py A) (k : A -> Py B) : Py B :=
  fun w =>
    match m w with
    | (Ok a, w') => k a w'
    | (Raise e, w') => (Raise e, w')
    | (OutOfFuel, w') => (OutOfFuel, w')
    end.

Definition raise {A} (e : exn) : Py A := fun w => (Raise e, w).

Definition out_of_fuel {A} : Py A := fun w => (OutOfFuel, w).

Notation "x <- m ;; k" := (bind m (fun x => k))
  (at level 100, m at next level, k at level 200, right associativity).
Notation "m ;;; k" := (bind m (fun _ => k))
  (at level 100, k at level 200, right associativity).

Definition print (s : string) : Py unit :=
  fun w => (Ok tt, {| console := console w ++ [s]; calls := calls w |}).

(** [when c m]: an [if c:] with no [else]. *)
Definition when (c : bool) (m : Py unit) : Py unit :=
  if c then m else ret tt.

(** ** Module-level names of lsodar.py *)

(** The names bound at module level: the four imports, the three tables and
    the function. *)
Definition module_globals : list string :=
  ["copy"; "os"; "scipy"; "_lsodar";
   "_msgs"; "_rwork_vars"; "_iwork_vars"; "odeintr"].

(** Names of Python 2 builtins that [odeintr] uses. *)
Definition builtins : list string :=
  ["len"; "list"; "dict"; "min"; "max"; "TypeError"; "ValueError"].

(** Evaluating a global name: module namespace, then builtins, else
    [NameError]. *)
Definition global (name : string) : Py unit :=
  if bool_decide (name ∈ (module_globals ++ builtins)%list) then ret tt
  else raise (NameError name).

Definition _msgs : list (Z * string) :=
  [(2, "Integration successful.");
   (3, "Integration successful. Root found.");
   (-1, "Excess work done on this call (perhaps wrong Dfun type).");
   (-2, "Excess accuracy requested (tolerances too small).");
   (-3, "Illegal input detected (internal error).");
   (-4, "Repeated error test failures (internal error).");
   (-5, "Repeated convergence failures (perhaps bad Jacobian or tolerances).");
   (-6, "Error weight became zero during problem.");
   (-7, "Internal workspace insufficient to finish (internal error).")].

Definition _rwork_vars : list (string * nat) :=
  [("hu", 10%nat); ("tcur", 12%nat); ("tolsf", 13%nat); ("tsw", 14%nat)].

Definition _iwork_vars : list (string * nat) :=
  [("nst", 10%nat); ("nfe", 11%nat); ("nje", 12%nat); ("nqu", 13%nat);
   ("imxer", 15%nat); ("lenrw", 16%nat); ("leniw", 17%nat);
   ("mused", 18%nat)].

(** [d[k]] on a table written as a list of items. *)
Fixpoint assoc {V} (k : Z) (d : list (Z * V)) : option V :=
  match d with
  | [] => None
  | (k', v) :: d' => if k =? k' then Some v else assoc k d'
  end.

(** [_msgs[istate]] *)
Definition msg_of (istate : Z) : Py string :=
  match assoc istate _msgs with
  | Some s => ret s
  | None => raise (KeyError (pretty istate))
  end.

(** ** Sequences *)

(** [l[i]] for [i >= 0]. *)
Definition getitem {A} (l : list A) (i : nat) : Py A :=
  match l !! i with
  | Some x => ret x
  | None => raise IndexError
  end.

(** [a[i] = x] on an array, for [i >= 0]. *)
Definition setitem {A} (l : list A) (i : nat) (x : A) : Py (list A) :=
  if bool_decide (i < length l)%nat then ret (<[i := x]> l)
  else raise IndexError.

(** [scipy.zeros(n, dtype)] *)
Definition zeros {A} (zero : A) (n : Z) : Py (list A) :=
  if n <? 0 then raise (ValueError "negative dimensions are not allowed")
  else ret (replicate (Z.to_nat n) zero).

(** Python's [a == b] and [min(a, b)] on floats: [min] keeps its first
    argument unless the second is smaller. *)
Definition feq (a b : float) : bool := PrimFloat.eqb a b.
Definition pymin (a b : float) : float := if PrimFloat.ltb b a then b else a.

(** Python's [max(a, b)] on ints. *)
Definition pymax (a b : Z) : Z := if a <? b then b else a.

(** [l.count(1)] and [l.index(1)] *)
Definition count1 (l : list Z) : nat := length (filter (fun x => x = 1) l).

Fixpoint index1 (l : list Z) : option nat :=
  match l with
  | [] => None
  | x :: l' => if x =? 1 then Some 0%nat else S <$> index1 l'
  end.

(** [str] of a list of ints, as [%s] prints it. *)
Definition str_list (l : list Z) : string :=
  ("[" ++ String.concat ", " (map pretty l) ++ "]")%string.

(** ** Arguments, environment and local variables of [odeintr] *)

(** The keyword arguments, with the names of the source.  Flags tested only
    for truth ([full_output], [printmessg], [int_pts]) are [bool];
    [tcrit] is [None] or a list. *)
Record odeintr_args := {
  func : pyref;
  y0 : list float;
  t : list float;
  args : list pyref;
  Dfun : option pyref;
  col_deriv : Z;
  full_output : bool;
  ml : Z;
  mu : Z;
  rtol : tol;
  atol : tol;
  tcrit : option (list float);
  h0 : float;
  hmax : float;
  hmin : float;
  ixpr : Z;
  mxstep : Z;
  mxhnil : Z;
  mxordn : Z;
  mxords : Z;
  printmessg : bool;
  root_term : list Z;
  root_func : option pyref;
  int_pts : bool
}.

(** What the set-up part (lines 152-241) fixes for the whole loop. *)
Record env := {
  e_args : odeintr_args;
  usefunc : fwrap;
  useg : gwrap;
  usejac : jwrap;
  neq : nat;
  ng : nat;
  itol : Z;
  jt : Z;
  tcrit' : option (list float);   (* [tcrit] after the merge *)
  t0 : float
}.

(** The variables the loop assigns. *)
Record locals := {
  itask : Z;
  istate : Z;
  tindex : nat;
  tcrit_ii : nat;
  tout : list float;
  yout : list (list float);
  t_root : list float;
  y_root : list (list float);
  i_root : list nat;
  info_dict : gmap string pyval;
  rwork : list float;
  iwork : list Z
}.

Inductive ctrl := Continue | Break.

(** The objects of the returned tuple, named after the variable each holds. *)
Inductive pyobj :=
| Trajectory (a : list (list float))       (* [scipy.array(yout)] *)
| TimeTrace (l : list float)               (* [tout] *)
| RootTimes (l : list float)               (* [t_root] *)
| RootStates (l : list (list float))       (* [y_root] *)
| RootIndices (l : list nat)               (* [i_root] *)
| InfoDict (d : gmap string pyval).        (* [info_dict] *)

Inductive pyresult :=
| Single (o : pyobj)
| Tuple (os : list pyobj).

(** ** Set-up: lines 152-247 *)

(** [len(x)] of a tolerance inside [try: ... except TypeError:]. *)
Definition tol_len (x : tol) : option nat :=
  match x with
  | TolSeq xs => Some (length xs)
  | _ => None
  end.

Definition tol_mismatch : string :=
  "Vector array of tolerances must have same length as number of equations!".

(** Lines 168-183, once for [rtol] and once for [atol]: the [*_seq] flag. *)
Definition check_tol (x : tol) (neq : nat) : Py bool :=
  match tol_len x with
  | None => ret false
  | Some n => if negb (n =? neq)%nat then raise (ValueError tol_mismatch)
              else ret true
  end.

(** Lines 186-189. *)
Definition itol_of (rtol_seq atol_seq : bool) : Z :=
  match rtol_seq, atol_seq with
  | false, false => 1
  | false, true => 2
  | true, false => 3
  | true, true => 4
  end.

(** Lines 212-215. *)
Definition jt_of (Dfun_def banded_jac : bool) : Z :=
  match Dfun_def, banded_jac with
  | true, false => 1
  | false, false => 2
  | true, true => 4
  | false, true => 5
  end.

(** Truth value of [tcrit] in [if tcrit:]. *)
Definition truthy (tc : option (list float)) : bool :=
  match tc with
  | Some (_ :: _) => true
  | _ => false
  end.

(** A set of floats listed in ascending order: [list(s)] then [.sort()],
    with [==] deciding membership. *)
Fixpoint set_add (x : float) (l : list float) : list float :=
  match l with
  | [] => [x]
  | y :: l' =>
      if feq x y then l
      else if PrimFloat.ltb x y then x :: l
      else y :: set_add x l'
  end.

Definition sorted_set (l : list float) : list float := foldr set_add [] l.

(** Lines 191-206: [itask] and the merged [tcrit].  Line 200 evaluates the
    global name [sets] before anything else in that branch. *)
Definition task_mode (a : odeintr_args) : Py (Z * option (list float)) :=
  let itask := if truthy (tcrit a) then 4 else 1 in
  if int_pts a then
    if truthy (tcrit a) then
      global "sets" ;;;
      ret (5, Some (sorted_set (default [] (tcrit a) ++ tail (t a))))
    else ret (5, Some (tail (t a)))
  else ret (itask, tcrit a).

(** Lines 219-222. *)
Definition lrw_of (neq ng : nat) (a : odeintr_args) : Z :=
  let neq := Z.of_nat neq in
  let ng := Z.of_nat ng in
  let lmat := pymax (neq ^ 2 + 2) ((2 * ml a + mu a + 1) * neq + 2) in
  let lrn := 20 + neq * (mxordn a + 4) + 3 * ng in
  let lrs := 20 + neq * (mxords a + 4) + lmat + 3 * ng in
  pymax lrn lrs.

(** Lines 245-246. *)
Definition info_dict0 : gmap string pyval :=
  list_to_map (map (fun kv => (fst kv, VList [])) (_rwork_vars ++ _iwork_vars)).

(** Lines 152-247, statement by statement. *)
Definition setup (a : odeintr_args) : Py (env * locals) :=
  let usefunc := UseFunc (func a) (args a) in
  let useg :=
    match root_func a with
    | Some g => if (0 <? length (root_term a))%nat then UseG g (args a)
                else IdentityG
    | None => IdentityG
    end in
  let usejac :=
    match Dfun a with
    | Some j => UseJac j (args a)
    | None => IdentityJ
    end in
  let Dfun_def := bool_decide (is_Some (Dfun a)) in
  let neq := length (y0 a) in
  let ng := length (root_term a) in
  rtol_seq <- check_tol (rtol a) neq ;;
  atol_seq <- check_tol (atol a) neq ;;
  let itol := itol_of rtol_seq atol_seq in
  mode <- task_mode a ;;
  let banded_jac := (0 <? ml a) || (0 <? mu a) in
  let jt := jt_of Dfun_def banded_jac in
  rwork <- zeros 0%float (lrw_of neq ng a) ;;
  iwork <- zeros 0 (20 + Z.of_nat neq) ;;
  rwork <- setitem rwork 4 (h0 a) ;;
  rwork <- setitem rwork 5 (hmax a) ;;
  rwork <- setitem rwork 6 (hmin a) ;;
  iwork <- setitem iwork 0 (ml a) ;;
  iwork <- setitem iwork 1 (mu a) ;;
  iwork <- setitem iwork 4 (ixpr a) ;;
  iwork <- setitem iwork 5 (mxstep a) ;;
  iwork <- setitem iwork 6 (mxhnil a) ;;
  iwork <- setitem iwork 7 (mxordn a) ;;
  iwork <- setitem iwork 8 (mxords a) ;;
  t0 <- getitem (t a) 0 ;;
  ret ({| e_args := a; usefunc := usefunc; useg := useg; usejac := usejac;
          neq := neq; ng := ng; itol := itol; jt := jt;
          tcrit' := snd mode; t0 := t0 |},
       {| itask := fst mode; istate := 1; tindex := 1; tcrit_ii := 0;
          tout := [t0]; yout := [y0 a];
          t_root := []; y_root := []; i_root := [];
          info_dict := info_dict0; rwork := rwork; iwork := iwork |}).

(** ** The loop body: lines 249-309 *)

(** [len(tcrit)] and [tcrit[i]]; [tcrit] may still be [None]. *)
Definition len_tcrit (e : env) : Py nat :=
  match tcrit' e with
  | Some tc => ret (length tc)
  | None => raise TypeError
  end.

Definition tcrit_at (e : env) (i : nat) : Py float :=
  match tcrit' e with
  | Some tc => getitem tc i
  | None => raise TypeError
  end.

(** [d[key].append(x)] *)
Definition dict_append (d : gmap string pyval) (key : string) (x : Py num)
  : Py (gmap string pyval) :=
  match d !! key with
  | None => raise (KeyError key)
  | Some (VStr _) => raise AttributeError
  | Some (VList l) => v <- x ;; ret (<[key := VList (l ++ [v])]> d)
  end.

(** [for key, index in vars.items(): info_dict[key].append(work[index])].
    The items are visited in the order the table is written; the keys are
    distinct, so the resulting dictionary does not depend on the order. *)
Fixpoint snapshot {A} (inj : A -> num) (vars : list (string * nat))
    (work : list A) (d : gmap string pyval) : Py (gmap string pyval) :=
  match vars with
  | [] => ret d
  | (key, index) :: vars' =>
      d' <- dict_append d key (x <- getitem work index ;; ret (inj x)) ;;
      snapshot inj vars' work d'
  end.

(** Lines 277-281. *)
Definition diagnostics (st : locals) : Py (gmap string pyval) :=
  d <- snapshot NumF _rwork_vars (rwork st) (info_dict st) ;;
  d <- snapshot NumI _iwork_vars (iwork st) d ;;
  m <- msg_of (istate st) ;;
  ret (<["message" := VStr m]> d).

(** The tuple assignment of line 256: [istate] is rebound, and the work
    arrays hold what the solver left in them. *)
Definition sync (st : locals) (rep : reply) : locals :=
  {| itask := itask st; istate := r_istate rep; tindex := tindex st;
     tcrit_ii := tcrit_ii st; tout := tout st; yout := yout st;
     t_root := t_root st; y_root := y_root st; i_root := i_root st;
     info_dict := info_dict st;
     rwork := r_rwork rep; iwork := r_iwork rep |}.

(** Lines 274-281. *)
Definition record_point (full : bool) (st : locals) (y : list float)
    (treached : float) : Py locals :=
  d <- (if full then diagnostics st else ret (info_dict st)) ;;
  ret {| itask := itask st; istate := istate st; tindex := tindex st;
         tcrit_ii := tcrit_ii st;
         tout := tout st ++ [treached]; yout := yout st ++ [y];
         t_root := t_root st; y_root := y_root st; i_root := i_root st;
         info_dict := d; rwork := rwork st; iwork := iwork st |}.

(** Line 285. *)
Definition next_tindex (st : locals) : locals :=
  {| itask := itask st; istate := istate st; tindex := S (tindex st);
     tcrit_ii := tcrit_ii st; tout := tout st; yout := yout st;
     t_root := t_root st; y_root := y_root st; i_root := i_root st;
     info_dict := info_dict st; rwork := rwork st; iwork := iwork st |}.

(** Lines 289-293. *)
Definition next_tcrit (e : env) (st : locals) : Py locals :=
  let ii := S (tcrit_ii st) in
  n <- len_tcrit e ;;
  ret {| itask := if (ii =? n)%nat then 1 else itask st;
         istate := istate st; tindex := tindex st;
         tcrit_ii := ii; tout := tout st; yout := yout st;
         t_root := t_root st; y_root := y_root st; i_root := i_root st;
         info_dict := info_dict st; rwork := rwork st; iwork := iwork st |}.

(** Lines 304-306; [copy.copy(y)] has the value of [y]. *)
Definition push_root (st : locals) (treached : float) (y : list float)
    (crossed : nat) : locals :=
  {| itask := itask st; istate := istate st; tindex := tindex st;
     tcrit_ii := tcrit_ii st; tout := tout st; yout := yout st;
     t_root := t_root st ++ [treached]; y_root := y_root st ++ [y];
     i_root := i_root st ++ [crossed];
     info_dict := info_dict st; rwork := rwork st; iwork := iwork st |}.

(** Line 288: [itask == 4 or itask == 5 and treached == tcrit[tcrit_ii]].
    [and] binds tighter than [or], and both operators short-circuit. *)
Definition reached_critical (e : env) (st : locals) (treached : float)
  : Py bool :=
  if itask st =? 4 then ret true
  else if itask st =? 5 then
    c <- tcrit_at e (tcrit_ii st) ;; ret (feq treached c)
  else ret false.

Definition multiple_roots (jroot : list Z) : string :=
  ("Multiple roots found at a single point!?! jroot is " ++ str_list jroot)%string.

(** Lines 296-309. *)
Definition root_found (e : env) (st : locals) (y : list float)
    (treached : float) (jroot : list Z) : Py (ctrl * locals) :=
  when (negb (count1 jroot =? 1)%nat) (print (multiple_roots jroot)) ;;;
  crossed <- match index1 jroot with
             | Some i => ret i
             | None => raise (ValueError "list.index(x): x not in list")
             end ;;
  let st := push_root st treached y crossed in
  flag <- getitem (root_term (e_args e)) crossed ;;
  if flag =? 1 then ret (Break, st) else ret (Continue, st).

(** Lines 272-293: record the point if it is wanted, then move the output
    cursor and the critical-time cursor. *)
Definition bookkeep (e : env) (st : locals) (y : list float)
    (treached : float) : Py locals :=
  let a := e_args e in
  twanted <- getitem (t a) (tindex st) ;;
  st <- (if feq treached twanted || (itask st =? 5) || (istate st =? 3)
         then record_point (full_output a) st y treached
         else ret st) ;;
  twanted <- getitem (t a) (tindex st) ;;
  let st := if feq treached twanted then next_tindex st else st in
  adv <- reached_critical e st treached ;;
  if adv then next_tcrit e st else ret st.

Definition run_with_full_output : string :=
  "Run with full_output = 1 to get quantitative information.".

(** Lines 263-309: what the driver does with the solver's answer. *)
Definition react (e : env) (st : locals) (rep : reply) : Py (ctrl * locals) :=
  let st := sync st rep in
  if istate st <? 0 then
    m <- msg_of (istate st) ;;
    print m ;;;
    print run_with_full_output ;;;
    ret (Break, st)
  else
    when (printmessg (e_args e)) (m <- msg_of (istate st) ;; print m) ;;;
    st <- bookkeep e st (r_y rep) (r_t rep) ;;
    if istate st =? 3 then root_found e st (r_y rep) (r_t rep) (r_jroot rep)
    else ret (Continue, st).

(** Lines 312-323. *)
Definition outputs (e : env) (st : locals) : pyresult :=
  let a := e_args e in
  let outputs := [Trajectory (yout st)] in
  let outputs :=
    if int_pts a || (0 <? ng e)%nat then outputs ++ [TimeTrace (tout st)]
    else outputs in
  let outputs :=
    if (0 <? ng e)%nat
    then outputs ++ [RootTimes (t_root st); RootStates (y_root st);
                     RootIndices (i_root st)]
    else outputs in
  let outputs :=
    if full_output a then outputs ++ [InfoDict (info_dict st)]
    else outputs in
  match outputs with
  | [o] => Single o
  | _ => Tuple outputs
  end.

(** ** The driver, over an arbitrary solver *)

Section Driver.

(** [_lsodar.dlsodar]: its answer may depend on every earlier call (the
    Fortran routine keeps state between calls) and on the present one. *)
Variable dlsodar : list call -> call -> reply.

Definition call_solver (c : call) : Py reply :=
  fun w => (Ok (dlsodar (calls w) c),
            {| console := console w; calls := calls w ++ [c] |}).

(** Lines 249-261: the target time, the critical time handed over in
    [rwork[0]], and the call. *)
Definition request (e : env) (st : locals) : Py reply :=
  let a := e_args e in
  twanted <- getitem (t a) (tindex st) ;;
  narrow <- (if (itask st =? 4) || (itask st =? 5) then
               n <- len_tcrit e ;; ret (tcrit_ii st <? n)%nat
             else ret false) ;;
  p <- (if narrow : bool then
          c <- tcrit_at e (tcrit_ii st) ;;
          rw <- setitem (rwork st) 0 c ;;
          c <- tcrit_at e (tcrit_ii st) ;;
          ret (rw, pymin c twanted)
        else ret (rwork st, twanted)) ;;
  call_solver
    {| c_f := usefunc e; c_y0 := y0 a; c_t0 := t0 e; c_tout := snd p;
       c_itol := itol e; c_rtol := rtol a; c_atol := atol a;
       c_itask := itask st; c_istate := istate st;
       c_rwork := fst p; c_iwork := iwork st;
       c_jac := usejac e; c_jt := jt e; c_g := useg e; c_ng := ng e |}.

Definition step (e : env) (st : locals) : Py (ctrl * locals) :=
  rep <- request e st ;;
  react e st rep.

(** Lines 248-309.  The loop runs as long as the solver keeps it running, so
    the embedding counts iterations down from [fuel]. *)
Fixpoint loop (fuel : nat) (e : env) (st : locals) : Py locals :=
  if (tindex st <? length (t (e_args e)))%nat then
    match fuel with
    | O => out_of_fuel
    | S fuel' =>
        r <- step e st ;;
        match fst r with
        | Break => ret (snd r)
        | Continue => loop fuel' e (snd r)
        end
    end
  else ret st.

Definition odeintr (fuel : nat) (a : odeintr_args) : Py pyresult :=
  p <- setup a ;;
  st <- loop fuel (fst p) (snd p) ;;
  ret (outputs (fst p) st).

End Driver.

(** ** Fixtures: default arguments and two simple solvers *)

(** The defaults of the signature (line 33). *)
Definition default_args (func : pyref) (y0 t : list float) : odeintr_args :=
  {| func := func; y0 := y0; t := t; args := []; Dfun := None;
     col_deriv := 0; full_output := false; ml := 0; mu := 0;
     rtol := TolNone; atol := TolNone; tcrit := None;
     h0 := 0; hmax := 0; hmin := 0; ixpr := 0; mxstep := 500; mxhnil := 0;
     mxordn := 12; mxords := 5; printmessg := false;
     root_term := []; root_func := None; int_pts := false |}.

(** A solver that lands on the requested time with status [st] and root
    indicators [jroot], leaving the state vector and work arrays alone. *)
Definition landing (st : Z) (jroot : list Z) (c : call) : reply :=
  {| r_y := c_y0 c; r_t := c_tout c; r_istate := st; r_jroot := jroot;
     r_rwork := c_rwork c; r_iwork := c_iwork c |}.

(** A solver that always succeeds exactly at the requested time. *)
Definition exact_solver (_ : list call) (c : call) : reply :=
  landing 2 (replicate (c_ng c) 0) c.

(** A solver that follows a script, one entry per call, then succeeds. *)
Definition scripted (script : list (call -> reply)) (h : list call) (c : call)
  : reply :=
  match script !! length h with
  | Some f => f c
  | None => exact_solver h c
  end.

(** A call on a one-equation system started at [y = 1], with the options the
    theorems below vary and the defaults elsewhere. *)
Definition sample_args (t : list float) (full_output printmessg : bool)
    (tcrit : option (list float)) (root_term : list Z)
    (root_func : option pyref) (int_pts : bool) : odeintr_args :=
  {| func := "f"; y0 := [1%float]; t := t; args := []; Dfun := None;
     col_deriv := 0; full_output := full_output; ml := 0; mu := 0;
     rtol := TolNone; atol := TolNone; tcrit := tcrit;
     h0 := 0; hmax := 0; hmin := 0; ixpr := 0; mxstep := 500; mxhnil := 0;
     mxordn := 12; mxords := 5; printmessg := printmessg;
     root_term := root_term; root_func := root_func; int_pts := int_pts |}.

(** The environment and the first loop state of such a call in task mode
    [itask] with critical times [tc], and a reply to its first request. *)
Definition sample_env (a : odeintr_args) (tc : option (list float)) : env :=
  {| e_args := a; usefunc := UseFunc (func a) (args a);
     useg := match root_func a with
             | Some g => if (0 <? length (root_term a))%nat
                         then UseG g (args a) else IdentityG
             | None => IdentityG
             end;
     usejac := IdentityJ; neq := length (y0 a); ng := length (root_term a);
     itol := 1; jt := 2; tcrit' := tc; t0 := 0 |}.

Definition sample_locals (itask : Z) : locals :=
  {| itask := itask; istate := 1; tindex := 1; tcrit_ii := 0;
     tout := [0%float]; yout := [[1%float]];
     t_root := []; y_root := []; i_root := [];
     info_dict := info_dict0;
     rwork := replicate 36 0%float; iwork := replicate 21 0 |}.

Definition sample_reply (treached : float) (istate : Z) (jroot : list Z)
  : reply :=
  {| r_y := [2%float]; r_t := treached; r_istate := istate;
     r_jroot := jroot;
     r_rwork := replicate 36 0%float; r_iwork := replicate 21 0 |}.

(** ** Predicates used in the statements *)

(** A tolerance that is a sequence of the wrong length. *)
Definition bad_tol (x : tol) (neq : nat) : bool :=
  match tol_len x with
  | Some n => negb (n =? neq)%nat
  | None => false
  end.

(** The message of a status code is attached to a result: the result holds
    a dictionary whose ['message'] entry is [_msgs[code]]. *)
Definition message_attached (code : Z) (r : pyresult) : Prop :=
  ∃ os d m, r = Tuple os ∧ InfoDict d ∈ os ∧
            assoc code _msgs = Some m ∧ d !! "message" = Some (VStr m).

(** What lines 277-281 leave in the dictionary [d'], taken in state [st]:
    every diagnostic key has the present value of its work-array slot
    appended, and ['message'] is the message of the present status. *)
Definition snapshotted (st : locals) (d' : gmap string pyval) : Prop :=
  (∀ key idx, (key, idx) ∈ _rwork_vars ->
     ∃ l x, info_dict st !! key = Some (VList l) ∧ rwork st !! idx = Some x ∧
            d' !! key = Some (VList (l ++ [NumF x])))
  ∧ (∀ key idx, (key, idx) ∈ _iwork_vars ->
       ∃ l x, info_dict st !! key = Some (VList l) ∧ iwork st !! idx = Some x ∧
              d' !! key = Some (VList (l ++ [NumI x])))
  ∧ (∃ m, assoc (istate st) _msgs = Some m ∧ d' !! "message" = Some (VStr m)).

(** The time trace is a member of a result. *)
Definition has_time_trace (r : pyresult) : Prop :=
  ∃ os l, r = Tuple os ∧ TimeTrace l ∈ os.

(** The role of each returned object, and the roles of a result in order. *)
Inductive role :=
| trajectory | timeTrace | rootTimes | rootStates | rootIndices | diagnosticsDict.

Definition role_of (o : pyobj) : role :=
  match o with
  | Trajectory _ => trajectory
  | TimeTrace _ => timeTrace
  | RootTimes _ => rootTimes
  | RootStates _ => rootStates
  | RootIndices _ => rootIndices
  | InfoDict _ => diagnosticsDict
  end.

Definition shape (r : pyresult) : list role :=
  match r with
  | Single o => [role_of o]
  | Tuple os => map role_of os
  end.

(** [d[key]] is a list; every diagnostic key of [d] holds a list. *)
Definition is_list (d : gmap string pyval) (key : string) : bool :=
  match d !! key with
  | Some (VList _) => true
  | _ => false
  end.

Definition info_ready (d : gmap string pyval) : bool :=
  forallb (fun kv => is_list d (fst kv)) (_rwork_vars ++ _iwork_vars).

(** The work arrays of a reply reach the diagnostic slots. *)
Definition work_ready (rep : reply) : bool :=
  (14 <? length (r_rwork rep))%nat && (18 <? length (r_iwork rep))%nat.

(** In a critical mode the cursor points into the critical-time list. *)
Definition crit_ready (e : env) (st : locals) : bool :=
  if (itask st =? 4) || (itask st =? 5) then
    match tcrit' e with
    | Some tc => (tcrit_ii st <? length tc)%nat
    | None => false
    end
  else true.

(** The state in which lines 263-293 cannot raise on a reply whose status has
    a message: the output cursor is inside [t], the critical cursor is inside
    [tcrit], and the diagnostics can be taken when they are asked for. *)
Definition ready (e : env) (st : locals) (rep : reply) : bool :=
  (tindex st <? length (t (e_args e)))%nat
  && crit_ready e st
  && (negb (full_output (e_args e))
      || (work_ready rep && info_ready (info_dict st))).

(** The state of the loop between iterations of a call that got through
    the set-up: the diagnostic keys hold lists; [itask] is 1, 4 or 5; in
    mode 4 the critical cursor is inside the list; in mode 5 the critical
    times are [t[1:]] and the two cursors move together. *)
Definition on_track (e : env) (st : locals) : Prop :=
  info_ready (info_dict st) = true
  ∧ (itask st = 1 ∨ itask st = 4 ∨ itask st = 5)
  ∧ (itask st = 4 ->
     ∃ tc, tcrit' e = Some tc ∧ (tcrit_ii st < length tc)%nat)
  ∧ (itask st = 5 ->
     tcrit' e = Some (tail (t (e_args e))) ∧ tindex st = S (tcrit_ii st)).

(** The test of line 273. *)
Definition wanted (st : locals) (treached twanted : float) : bool :=
  feq treached twanted || (itask st =? 5) || (istate st =? 3).

(** The test of line 288, with the critical time [c] at the cursor. *)
Definition crit_hit (st : locals) (treached : float) (c : option float) : bool :=
  (itask st =? 4)
  || ((itask st =? 5) && match c with Some c => feq treached c | None => false end).

(** The world after [print]ing some lines. *)
Definition told (lines : list string) (w : world) : world :=
  {| console := console w ++ lines; calls := calls w |}.

(** The world after lines 298-299. *)
Definition warned (jroot : list Z) (w : world) : world :=
  {| console := console w
                ++ (if (count1 jroot =? 1)%nat then []
                    else [multiple_roots jroot]);
     calls := calls w |}.

(** The six result shapes of the documentation. *)
Definition documented_shapes : list (list role) :=
  [ [trajectory];
    [trajectory; diagnosticsDict];
    [trajectory; timeTrace];
    [trajectory; timeTrace; diagnosticsDict];
    [trajectory; timeTrace; rootTimes; rootStates; rootIndices];
    [trajectory; timeTrace; rootTimes; rootStates; rootIndices;
     diagnosticsDict] ].

(** [asks P m]: whatever [m] does, the calls it adds to the log all
    satisfy [P]. *)
Definition asks {A} (P : call -> Prop) (m : Py A) : Prop :=
  ∀ w, ∃ cs, calls (m w).2 = calls w ++ cs ∧ Forall P cs.

(** Every call of the loop is made for the [ng] roots of [useg]. *)
Definition for_roots_of (e : env) (c : call) : Prop :=
  c_ng c = ng e ∧ c_g c = useg e.

(** The objects of a result, in order. *)
Definition items (r : pyresult) : list pyobj :=
  match r with
  | Single o => [o]
  | Tuple os => os
  end.

(** The solver arguments that a call fixes once and for all. *)
Definition fixed_arguments (a : odeintr_args) (c : call) : Prop :=
  c_f c = UseFunc (func a) (args a)
  ∧ c_y0 c = y0 a
  ∧ Some (c_t0 c) = head (t a)
  ∧ c_rtol c = rtol a ∧ c_atol c = atol a
  ∧ c_itol c = itol_of (bool_decide (is_Some (tol_len (rtol a))))
                       (bool_decide (is_Some (tol_len (atol a))))
  ∧ c_jt c = jt_of (bool_decide (is_Some (Dfun a)))
                   ((0 <? ml a) || (0 <? mu a))
  ∧ c_jac c = match Dfun a with
              | Some j => UseJac j (args a)
              | None => IdentityJ
              end
  ∧ c_ng c = length (root_term a).

(** The conditions under which lines 152-238 raise nothing: tolerances of
    the right length, no [tcrit] together with [int_pts], and a real work
    array that reaches slot 6. *)
Definition config_passes (a : odeintr_args) : bool :=
  negb (bad_tol (rtol a) (length (y0 a)))
  && negb (bad_tol (atol a) (length (y0 a)))
  && negb (int_pts a && truthy (tcrit a))
  && (7 <=? lrw_of (length (y0 a)) (length (root_term a)) a).

(** The conditions under which the whole set-up raises nothing. *)
Definition setup_passes (a : odeintr_args) : bool :=
  config_passes a && (0 <? length (t a))%nat.

(** The critical time a request hands to the solver, if any (line 250). *)
Definition pending_critical (e : env) (st : locals) : option float :=
  if (itask st =? 4) || (itask st =? 5)
  then tc ← tcrit' e; tc !! tcrit_ii st
  else None.

(** A solver that never fails, never reports a root, and always stops at a
    time that [==] tells apart from every requested time. *)
Definition stalls (dlsodar : list call -> call -> reply)
    (a : odeintr_args) : Prop :=
  ∀ h c, r_istate (dlsodar h c) = 2
         ∧ Forall (λ x, feq (r_t (dlsodar h c)) x = false) (t a).

(** A solver that always succeeds without reporting a root. *)
Definition succeeds (dlsodar : list call -> call -> reply) : Prop :=
  ∀ h c, r_istate (dlsodar h c) = 2.

(** A solver that misses every requested time by stopping at [-1]. *)
Definition stalling_solver (_ : list call) (c : call) : reply :=
  {| r_y := c_y0 c; r_t := (-1)%float; r_istate := 2; r_jroot := [];
     r_rwork := c_rwork c; r_iwork := c_iwork c |}.

(** ** Running monadic code *)

Lemma bind_ok {A B} (m : Py A) (k : A -> Py B) w a w' :
  m w = (Ok a, w') -> bind m k w = k a w'.
Proof. intros H. unfold bind. by rewrite H. Qed.

Lemma bind_raise {A B} (m : Py A) (k : A -> Py B) w e w' :
  m w = (Raise e, w') -> bind m k w = (Raise e, w').
Proof. intros H. unfold bind. by rewrite H. Qed.

Lemma bind_inv_ok {A B} (m : Py A) (k : A -> Py B) w b w2 :
  bind m k w = (Ok b, w2) ->
  ∃ a w1, m w = (Ok a, w1) ∧ k a w1 = (Ok b, w2).
Proof.
  unfold bind. destruct (m w) as [[a| |] w1]; intros H; try discriminate.
  by exists a, w1.
Qed.

Lemma getitem_ok {A} (l : list A) i x w :
  l !! i = Some x -> getitem l i w = (Ok x, w).
Proof. intros H. unfold getitem. by rewrite H. Qed.

Lemma getitem_inv {A} (l : list A) i x w w' :
  getitem l i w = (Ok x, w') -> l !! i = Some x ∧ w' = w.
Proof.
  unfold getitem. destruct (l !! i); intros H; inversion H; by subst.
Qed.

Lemma check_tol_eq x n w :
  check_tol x n w =
  (if bad_tol x n then Raise (ValueError tol_mismatch)
   else Ok (bool_decide (is_Some (tol_len x))), w).
Proof.
  unfold check_tol, bad_tol. destruct (tol_len x) as [m|]; [|done].
  destruct (m =? n)%nat; done.
Qed.

(** ** Diagnostics *)

Lemma is_list_insert d k l key :
  is_list d key = true -> is_list (<[k := VList l]> d) key = true.
Proof.
  unfold is_list. intros H. destruct (decide (k = key)) as [->|Hne].
  - by rewrite lookup_insert_eq.
  - by rewrite lookup_insert_ne.
Qed.

Lemma dict_append_inv d key (x : Py num) w d' w' :
  (∀ v w1 w2, x w1 = (Ok v, w2) -> w2 = w1) ->
  dict_append d key x w = (Ok d', w') ->
  ∃ l v, d !! key = Some (VList l) ∧ x w = (Ok v, w) ∧
         d' = <[key := VList (l ++ [v])]> d ∧ w' = w.
Proof.
  intros Hx. unfold dict_append.
  destruct (d !! key) as [[l|s]|]; try discriminate.
  intros H. apply bind_inv_ok in H as (v & w1 & Hv & H).
  pose proof (Hx _ _ _ Hv) as ->. inversion H; subst.
  by exists l, v.
Qed.

Lemma slot_inv {A} (inj : A -> num) (work : list A) i v w1 w2 :
  (x <- getitem work i ;; ret (inj x)) w1 = (Ok v, w2) ->
  w2 = w1 ∧ ∃ x, work !! i = Some x ∧ v = inj x.
Proof.
  intros H. apply bind_inv_ok in H as (x & w' & Hx & H).
  apply getitem_inv in Hx as [Hx ->]. inversion H; subst. eauto.
Qed.

Lemma snapshot_inv {A} (inj : A -> num) vars (work : list A) :
  NoDup vars.*1 ->
  ∀ d w d' w',
    snapshot inj vars work d w = (Ok d', w') ->
    w' = w
    ∧ (∀ key idx, (key, idx) ∈ vars ->
         ∃ l x, d !! key = Some (VList l) ∧ work !! idx = Some x ∧
                d' !! key = Some (VList (l ++ [inj x])))
    ∧ (∀ key, key ∉ vars.*1 -> d' !! key = d !! key).
Proof.
  induction vars as [|[k i] vs IH]; intros Hnd d w d' w' H.
  - inversion H; subst. split; [done|]. split; [|done].
    intros key idx Hin. by apply elem_of_nil in Hin.
  - simpl in H. apply bind_inv_ok in H as (d1 & w1 & H1 & H).
    apply dict_append_inv in H1 as (l & v & Hl & Hv & -> & ->);
      [|intros ? ? ? Hs; by apply slot_inv in Hs as [-> _]].
    apply slot_inv in Hv as (_ & x & Hx & ->).
    apply NoDup_cons in Hnd as [Hk Hnd].
    destruct (IH Hnd _ _ _ _ H) as (-> & Hin & Hout).
    split; [done|]. split.
    + intros key idx Hel. apply elem_of_cons in Hel as [Heq|Hel].
      * inversion Heq; subst. exists l, x. split; [done|]. split; [done|].
        rewrite (Hout k Hk). by rewrite lookup_insert_eq.
      * destruct (Hin key idx Hel) as (l' & x' & Hl' & Hx' & Hd').
        assert (k ≠ key) as Hne.
        { intros ->. apply Hk. apply list_elem_of_fmap.
          by exists (key, idx). }
        rewrite lookup_insert_ne in Hl' by done. by exists l', x'.
    + intros key Hnot. simpl in Hnot. apply not_elem_of_cons in Hnot as [Hne Hnot].
      rewrite (Hout key Hnot). by rewrite lookup_insert_ne.
Qed.

Lemma snapshot_ok {A} (inj : A -> num) vars (work : list A) :
  ∀ d,
    (∀ kv, kv ∈ vars -> is_list d kv.1 = true ∧ (kv.2 < length work)%nat) ->
    ∃ d', (∀ w, snapshot inj vars work d w = (Ok d', w))
          ∧ (∀ key, is_list d key = true -> is_list d' key = true).
Proof.
  induction vars as [|[k i] vs IH]; intros d Hall.
  - by exists d.
  - destruct (Hall (k, i)) as [Hk Hi]; [left|]. simpl in Hk, Hi.
    unfold is_list in Hk. destruct (d !! k) as [[l|?]|] eqn:Hl; try discriminate.
    destruct (lookup_lt_is_Some_2 work i Hi) as [x Hx].
    destruct (IH (<[k := VList (l ++ [inj x])]> d)) as (d' & Hrun & Hkeep).
    { intros kv Hin. destruct (Hall kv) as [H1 H2]; [by right|].
      split; [by apply is_list_insert|done]. }
    exists d'. split.
    + intros w. simpl. unfold dict_append. rewrite Hl.
      erewrite bind_ok; [apply Hrun|].
      erewrite bind_ok; [reflexivity|].
      erewrite bind_ok; [reflexivity|by apply getitem_ok].
    + intros key Hkey. apply Hkeep. by apply is_list_insert.
Qed.

Lemma msg_of_ok i m w : assoc i _msgs = Some m -> msg_of i w = (Ok m, w).
Proof. intros H. unfold msg_of. by rewrite H. Qed.

Lemma msg_of_inv i m w w' :
  msg_of i w = (Ok m, w') -> assoc i _msgs = Some m ∧ w' = w.
Proof.
  unfold msg_of. destruct (assoc i _msgs); intros H; inversion H; by subst.
Qed.

Lemma info_ready_spec d :
  info_ready d = true ->
  ∀ kv, kv ∈ _rwork_vars ++ _iwork_vars -> is_list d kv.1 = true.
Proof.
  unfold info_ready. rewrite forallb_forall. intros H kv Hin.
  apply (H kv). by apply list_elem_of_In.
Qed.

(** When the slots and keys are there and the status has a message, taking
    the diagnostics succeeds and touches nothing else. *)
Lemma diagnostics_ok st m :
  info_ready (info_dict st) = true ->
  (14 < length (rwork st))%nat -> (18 < length (iwork st))%nat ->
  assoc (istate st) _msgs = Some m ->
  ∃ d, ∀ w, diagnostics st w = (Ok d, w).
Proof.
  intros Hinfo Hr Hi Hm. pose proof (info_ready_spec _ Hinfo) as Hkeys.
  destruct (snapshot_ok NumF _rwork_vars (rwork st) (info_dict st))
    as (d1 & Hrun1 & Hkeep1).
  { intros kv Hin. split; [apply Hkeys, elem_of_app; by left|].
    unfold _rwork_vars in Hin.
    repeat (apply elem_of_cons in Hin as [->|Hin]; [simpl; lia|]).
    by apply elem_of_nil in Hin. }
  destruct (snapshot_ok NumI _iwork_vars (iwork st) d1) as (d2 & Hrun2 & _).
  { intros kv Hin. split; [apply Hkeep1, Hkeys, elem_of_app; by right|].
    unfold _iwork_vars in Hin.
    repeat (apply elem_of_cons in Hin as [->|Hin]; [simpl; lia|]).
    by apply elem_of_nil in Hin. }
  exists (<["message" := VStr m]> d2). intros w. unfold diagnostics.
  erewrite bind_ok; [|apply Hrun1].
  erewrite bind_ok; [|apply Hrun2].
  erewrite bind_ok; [|by apply msg_of_ok]. reflexivity.
Qed.

Lemma diagnostic_keys_NoDup :
  NoDup _rwork_vars.*1 ∧ NoDup _iwork_vars.*1.
Proof. split; apply (bool_decide_unpack _); vm_compute; exact I. Qed.

Lemma diagnostics_inv st d w w' :
  diagnostics st w = (Ok d, w') -> w' = w ∧ snapshotted st d.
Proof.
  unfold diagnostics. intros H.
  apply bind_inv_ok in H as (d1 & w1 & H1 & H).
  apply bind_inv_ok in H as (d2 & w2 & H2 & H).
  apply bind_inv_ok in H as (m & w3 & Hm & H).
  destruct diagnostic_keys_NoDup as [Hndr Hndi].
  apply (snapshot_inv _ _ _ Hndr) in H1 as (-> & Hin1 & Hout1).
  apply (snapshot_inv _ _ _ Hndi) in H2 as (-> & Hin2 & Hout2).
  apply msg_of_inv in Hm as [Hm ->]. inversion H; subst. clear H.
  split; [done|]. split; [|split].
  - intros key idx Hel. destruct (Hin1 key idx Hel) as (l & x & Hl & Hx & Hd1).
    exists l, x. split; [done|]. split; [done|].
    assert (key ≠ "message" ∧ key ∉ _iwork_vars.*1) as [Hne Hni].
    { unfold _rwork_vars in Hel.
      repeat (apply elem_of_cons in Hel as [[= -> ->]|Hel];
              [split; [done|]; apply (bool_decide_unpack _); vm_compute; exact I|]).
      by apply elem_of_nil in Hel. }
    rewrite lookup_insert_ne by done. by rewrite (Hout2 key Hni).
  - intros key idx Hel. destruct (Hin2 key idx Hel) as (l & x & Hl & Hx & Hd2).
    assert (key ≠ "message" ∧ key ∉ _rwork_vars.*1) as [Hne Hni].
    { unfold _iwork_vars in Hel.
      repeat (apply elem_of_cons in Hel as [[= -> ->]|Hel];
              [split; [done|]; apply (bool_decide_unpack _); vm_compute; exact I|]).
      by apply elem_of_nil in Hel. }
    exists l, x. rewrite <- (Hout1 key Hni). split; [done|]. split; [done|].
    by rewrite lookup_insert_ne.
  - exists m. split; [done|]. by rewrite lookup_insert_eq.
Qed.

(** ** The bookkeeping part of an iteration *)

(** What lines 272-293 do to the local variables, field by field. *)
Lemma bookkeep_inv e st y treached st' w w' :
  bookkeep e st y treached w = (Ok st', w') ->
  w' = w ∧
  ∃ twanted,
    t (e_args e) !! tindex st = Some twanted
    ∧ tout st' = (if wanted st treached twanted
                  then tout st ++ [treached] else tout st)
    ∧ yout st' = (if wanted st treached twanted
                  then yout st ++ [y] else yout st)
    ∧ (if wanted st treached twanted && full_output (e_args e)
       then snapshotted st (info_dict st')
       else info_dict st' = info_dict st)
    ∧ tindex st' = (if feq treached twanted
                    then S (tindex st) else tindex st)
    ∧ (let c := tc ← tcrit' e; tc !! tcrit_ii st in
       tcrit_ii st' = (if crit_hit st treached c
                       then S (tcrit_ii st) else tcrit_ii st)
       ∧ itask st' = (if crit_hit st treached c
                         && bool_decide (Some (S (tcrit_ii st))
                                         = length <$> tcrit' e)
                      then 1 else itask st))
    ∧ istate st' = istate st
    ∧ t_root st' = t_root st ∧ y_root st' = y_root st
    ∧ i_root st' = i_root st
    ∧ rwork st' = rwork st ∧ iwork st' = iwork st.
Proof.
  unfold bookkeep. cbv zeta. intros H.
  apply bind_inv_ok in H as (tw & w1 & Htw & H).
  apply getitem_inv in Htw as [Htw ->].
  apply bind_inv_ok in H as (st1 & w1 & Hrec & H).
  assert (w1 = w ∧ tindex st1 = tindex st ∧ itask st1 = itask st
          ∧ tcrit_ii st1 = tcrit_ii st ∧ istate st1 = istate st
          ∧ t_root st1 = t_root st ∧ y_root st1 = y_root st
          ∧ i_root st1 = i_root st
          ∧ rwork st1 = rwork st ∧ iwork st1 = iwork st
          ∧ tout st1 = (if wanted st treached tw
                        then tout st ++ [treached] else tout st)
          ∧ yout st1 = (if wanted st treached tw
                        then yout st ++ [y] else yout st)
          ∧ (if wanted st treached tw && full_output (e_args e)
             then snapshotted st (info_dict st1)
             else info_dict st1 = info_dict st))
    as (-> & Hti & Hit & Hci & His & Htr & Hyr & Hir & Hrw & Hiw & Hto & Hyo & Hd).
  { fold (wanted st treached tw) in Hrec.
    destruct (wanted st treached tw).
    - unfold record_point in Hrec.
      apply bind_inv_ok in Hrec as (d & w2 & Hdiag & Hrec).
      inversion Hrec; subst; clear Hrec. simpl.
      destruct (full_output (e_args e)).
      + apply diagnostics_inv in Hdiag as [-> Hsnap]. done.
      + inversion Hdiag; subst. done.
    - inversion Hrec; subst. done. }
  rewrite Hti in H.
  apply bind_inv_ok in H as (tw' & w1 & Htw' & H).
  apply getitem_inv in Htw' as [Htw' ->].
  rewrite Htw in Htw'. inversion Htw'; subst tw'; clear Htw'.
  apply bind_inv_ok in H as (adv & w1 & Hadv & H).
  set (st2 := if feq treached tw then next_tindex st1 else st1) in *.
  assert (tindex st2 = (if feq treached tw then S (tindex st) else tindex st)
          ∧ itask st2 = itask st ∧ tcrit_ii st2 = tcrit_ii st
          ∧ istate st2 = istate st
          ∧ t_root st2 = t_root st ∧ y_root st2 = y_root st
          ∧ i_root st2 = i_root st
          ∧ rwork st2 = rwork st ∧ iwork st2 = iwork st
          ∧ tout st2 = tout st1 ∧ yout st2 = yout st1
          ∧ info_dict st2 = info_dict st1)
    as (Hti2 & Hit2 & Hci2 & His2 & Htr2 & Hyr2 & Hir2 & Hrw2 & Hiw2 & Hto2 & Hyo2 & Hd2).
  { subst st2. destruct (feq treached tw); simpl; rewrite ?Hti; done. }
  clearbody st2.
  assert (w1 = w ∧ adv = crit_hit st treached (tc ← tcrit' e; tc !! tcrit_ii st)
          ∧ (adv = true -> is_Some (tcrit' e) -> True))
    as (-> & Hadv' & _).
  { unfold reached_critical in Hadv. unfold crit_hit. rewrite Hit2, Hci2 in Hadv.
    destruct (itask st =? 4) eqn:H4; [by inversion Hadv|].
    destruct (itask st =? 5) eqn:H5; [|by inversion Hadv].
    apply bind_inv_ok in Hadv as (c & w2 & Hc & Hadv).
    unfold tcrit_at in Hc. destruct (tcrit' e) as [tc|]; [|discriminate].
    apply getitem_inv in Hc as [Hc ->]. inversion Hadv; subst.
    simpl. by rewrite Hc. }
  split.
  - destruct adv; [|by inversion H].
    unfold next_tcrit in H. apply bind_inv_ok in H as (n & w2 & Hn & H).
    unfold len_tcrit in Hn. destruct (tcrit' e); [|discriminate].
    inversion Hn; subst. by inversion H.
  - exists tw. split; [done|].
    rewrite <- Hadv'. clear Hadv'.
    destruct adv.
    + unfold next_tcrit in H. apply bind_inv_ok in H as (n & w2 & Hn & H).
      unfold len_tcrit in Hn. destruct (tcrit' e) as [tc|]; [|discriminate].
      inversion Hn; subst; clear Hn. rewrite Hci2, Hit2 in H.
      destruct (Nat.eqb_spec (S (tcrit_ii st)) (length tc)) as [Heq|Hne];
        inversion H; subst; clear H; cbn [tout yout info_dict tindex tcrit_ii
          itask istate t_root y_root i_root rwork iwork andb option_bind mbind fmap option_fmap option_map];
        rewrite Hto2, Hyo2, Hd2, ?Hci2.
      * rewrite bool_decide_eq_true_2; [done|by rewrite Heq].
      * rewrite bool_decide_eq_false_2; [done|]. intros [=]. done.
    + inversion H; subst; clear H. simpl.
      rewrite Hto2, Hyo2, Hd2. done.
Qed.

Lemma ready_spec e st rep :
  ready e st rep = true ->
  (∃ twanted, t (e_args e) !! tindex st = Some twanted)
  ∧ crit_ready e st = true
  ∧ (full_output (e_args e) = true ->
     (14 < length (r_rwork rep))%nat ∧ (18 < length (r_iwork rep))%nat
     ∧ info_ready (info_dict st) = true).
Proof.
  unfold ready, work_ready. intros H.
  apply andb_prop in H as [H Hfull]. apply andb_prop in H as [Ht Hc].
  apply Nat.ltb_lt in Ht. split; [by apply lookup_lt_is_Some_2|].
  split; [done|]. intros Hf. rewrite Hf in Hfull. simpl in Hfull.
  apply andb_prop in Hfull as [Hw Hi]. apply andb_prop in Hw as [Hw1 Hw2].
  apply Nat.ltb_lt in Hw1, Hw2. done.
Qed.

(** In a ready state, on a reply whose status has a message, lines 272-293
    run to their end without raising and without effect on the world. *)
Lemma bookkeep_total e st rep m :
  ready e st rep = true ->
  assoc (r_istate rep) _msgs = Some m ->
  ∃ st', ∀ w,
    bookkeep e (sync st rep) (r_y rep) (r_t rep) w = (Ok st', w).
Proof.
  intros Hready Hm.
  apply ready_spec in Hready as ((tw & Htw) & Hcrit & Hfull).
  unfold bookkeep. cbv zeta.
  cbn [sync tindex itask istate].
  set (st0 := sync st rep).
  assert (∃ st1, (∀ w,
      (if feq (r_t rep) tw || (itask st =? 5) || (r_istate rep =? 3)
       then record_point (full_output (e_args e)) st0 (r_y rep) (r_t rep)
       else ret st0) w = (Ok st1, w))
      ∧ tindex st1 = tindex st ∧ itask st1 = itask st
      ∧ tcrit_ii st1 = tcrit_ii st) as (st1 & Hrec & Hti & Hit & Hci).
  { destruct (feq (r_t rep) tw || (itask st =? 5) || (r_istate rep =? 3));
      [|by exists st0].
    unfold record_point. destruct (full_output (e_args e)) eqn:Hf.
    - destruct Hfull as (Hr & Hi & Hinfo); [done|].
      destruct (diagnostics_ok st0 m) as [d Hd]; try done.
      eexists. split; [intros w; erewrite bind_ok; [reflexivity|apply Hd]|].
      done.
    - eexists. split; [intros w; reflexivity|]. done. }
  set (st2 := if feq (r_t rep) tw then next_tindex st1 else st1).
  assert (itask st2 = itask st ∧ tcrit_ii st2 = tcrit_ii st) as [Hit2 Hci2].
  { subst st2. by destruct (feq (r_t rep) tw). }
  assert (∃ st3, ∀ w,
      (adv <- reached_critical e st2 (r_t rep) ;;
       if adv then next_tcrit e st2 else ret st2) w = (Ok st3, w))
    as [st3 Hadv].
  { unfold crit_ready in Hcrit. unfold reached_critical, next_tcrit, tcrit_at,
      len_tcrit. rewrite Hit2, Hci2.
    destruct (itask st =? 4) eqn:H4; simpl in Hcrit.
    - destruct (tcrit' e) as [tc|]; [|discriminate].
      eexists. intros w. reflexivity.
    - destruct (itask st =? 5) eqn:H5; simpl in Hcrit.
      + destruct (tcrit' e) as [tc|]; [|discriminate].
        apply Nat.ltb_lt in Hcrit.
        destruct (lookup_lt_is_Some_2 tc _ Hcrit) as [c Hc].
        destruct (feq (r_t rep) c) eqn:Hfc.
        * eexists. intros w. erewrite bind_ok;
            [|erewrite bind_ok; [reflexivity|by apply getitem_ok]].
          rewrite Hfc. reflexivity.
        * eexists. intros w. erewrite bind_ok;
            [|erewrite bind_ok; [reflexivity|by apply getitem_ok]].
          rewrite Hfc. reflexivity.
      + eexists. intros w. reflexivity. }
  exists st3. intros w.
  erewrite bind_ok; [|by apply getitem_ok].
  erewrite bind_ok; [|apply Hrec].
  rewrite Hti. erewrite bind_ok; [|by apply getitem_ok].
  apply Hadv.
Qed.

(** ** Root selection *)

Lemma index1_Some l i :
  index1 l = Some i ->
  l !! i = Some 1 ∧ ∀ j, (j < i)%nat -> l !! j ≠ Some 1.
Proof.
  revert i. induction l as [|x l IH]; intros i H; [discriminate|].
  simpl in H. destruct (Z.eqb_spec x 1) as [->|Hx].
  - inversion H; subst. split; [done|]. intros j Hj. lia.
  - destruct (index1 l) as [i'|]; [|discriminate]. inversion H; subst.
    destruct (IH i' eq_refl) as [Hi Hlow]. split; [done|].
    intros [|j] Hj; simpl; [congruence|]. apply Hlow. lia.
Qed.

Lemma index1_None l : index1 l = None <-> 1 ∉ l.
Proof.
  induction l as [|x l IH]; simpl.
  - split; [intros _; apply not_elem_of_nil|done].
  - destruct (Z.eqb_spec x 1) as [->|Hx].
    + split; [discriminate|]. intros H. exfalso. apply H. left.
    + rewrite not_elem_of_cons. destruct (index1 l); simpl.
      * split; [discriminate|]. intros [_ H]. by apply IH in H.
      * split; [|done]. intros _. split; [congruence|]. by apply IH.
Qed.

Lemma count1_pos l : (0 < count1 l)%nat -> is_Some (index1 l).
Proof.
  unfold count1. induction l as [|x l IH]; simpl; [lia|].
  destruct (Z.eqb_spec x 1) as [->|Hx]; [done|].
  rewrite filter_cons_False by done. intros H.
  destruct (IH H) as [i ->]. done.
Qed.

Lemma when_warn jroot w :
  when (negb (count1 jroot =? 1)%nat) (print (multiple_roots jroot)) w
  = (Ok tt, warned jroot w).
Proof.
  unfold when, warned. destruct (count1 jroot =? 1)%nat; simpl; [|done].
  unfold ret. rewrite app_nil_r. by destruct w.
Qed.

Lemma root_found_Some e st y treached jroot i flag w :
  index1 jroot = Some i ->
  root_term (e_args e) !! i = Some flag ->
  root_found e st y treached jroot w
  = (Ok (if flag =? 1 then Break else Continue, push_root st treached y i),
     warned jroot w).
Proof.
  intros Hi Hflag. unfold root_found.
  erewrite bind_ok; [|apply when_warn]. rewrite Hi.
  erewrite bind_ok; [|reflexivity].
  erewrite bind_ok; [|by apply getitem_ok].
  by destruct (flag =? 1).
Qed.

Lemma root_found_None e st y treached jroot w :
  index1 jroot = None ->
  root_found e st y treached jroot w
  = (Raise (ValueError "list.index(x): x not in list"), warned jroot w).
Proof.
  intros Hi. unfold root_found.
  erewrite bind_ok; [|apply when_warn]. rewrite Hi.
  by apply bind_raise.
Qed.

Lemma root_found_inv e st y treached jroot r w w' :
  root_found e st y treached jroot w = (Ok r, w') ->
  ∃ i flag, index1 jroot = Some i ∧ root_term (e_args e) !! i = Some flag
            ∧ r = (if flag =? 1 then Break else Continue,
                   push_root st treached y i)
            ∧ w' = warned jroot w.
Proof.
  intros H. destruct (index1 jroot) as [i|] eqn:Hi.
  - destruct (root_term (e_args e) !! i) as [flag|] eqn:Hflag.
    + rewrite (root_found_Some _ _ _ _ _ _ _ _ Hi Hflag) in H.
      inversion H; subst. by exists i, flag.
    + unfold root_found in H. erewrite bind_ok in H; [|apply when_warn].
      rewrite Hi in H. erewrite bind_ok in H; [|reflexivity].
      erewrite bind_raise in H; [discriminate|].
      unfold getitem. by rewrite Hflag.
  - rewrite (root_found_None _ _ _ _ _ _ Hi) in H. discriminate.
Qed.

(** ** The reaction to a reply *)

Lemma react_failure e st rep m w :
  r_istate rep < 0 ->
  assoc (r_istate rep) _msgs = Some m ->
  react e st rep w
  = (Ok (Break, sync st rep), told [m; run_with_full_output] w).
Proof.
  intros Hneg Hm. unfold react. cbv zeta. cbn [sync istate].
  destruct (Z.ltb_spec (r_istate rep) 0); [|lia].
  erewrite bind_ok; [|by apply msg_of_ok].
  unfold bind, print, ret, told. simpl. by rewrite <- app_assoc.
Qed.

Lemma react_success e st rep m w :
  0 <= r_istate rep ->
  assoc (r_istate rep) _msgs = Some m ->
  ∀ st', (∀ w, bookkeep e (sync st rep) (r_y rep) (r_t rep) w = (Ok st', w)) ->
  react e st rep w
  = (if istate st' =? 3
     then root_found e st' (r_y rep) (r_t rep) (r_jroot rep)
     else ret (Continue, st'))
      (told (if printmessg (e_args e) then [m] else []) w).
Proof.
  intros Hpos Hm st' Hbk. unfold react. cbv zeta. cbn [sync istate].
  destruct (Z.ltb_spec (r_istate rep) 0); [lia|].
  assert (when (printmessg (e_args e))
            (m <- msg_of (r_istate rep) ;; print m) w
          = (Ok tt, told (if printmessg (e_args e) then [m] else []) w))
    as Hwhen.
  { unfold when. destruct (printmessg (e_args e)).
    - erewrite bind_ok; [|by apply msg_of_ok]. reflexivity.
    - unfold ret, told. rewrite app_nil_r. by destruct w. }
  erewrite bind_ok; [|apply Hwhen].
  erewrite bind_ok; [|apply Hbk]. reflexivity.
Qed.

Lemma react_inv e st rep r w w' :
  0 <= r_istate rep ->
  react e st rep w = (Ok r, w') ->
  ∃ st' wp,
    bookkeep e (sync st rep) (r_y rep) (r_t rep) wp = (Ok st', wp)
    ∧ calls wp = calls w
    ∧ (if r_istate rep =? 3
       then root_found e st' (r_y rep) (r_t rep) (r_jroot rep) wp = (Ok r, w')
       else r = (Continue, st') ∧ w' = wp).
Proof.
  intros Hpos. unfold react. cbv zeta. cbn [sync istate].
  destruct (Z.ltb_spec (r_istate rep) 0) as [|_]; [lia|]. intros H.
  apply bind_inv_ok in H as ([] & wp & Hp & H).
  apply bind_inv_ok in H as (st' & w1 & Hbk & H).
  destruct (bookkeep_inv _ _ _ _ _ _ _ Hbk) as (-> & tw & _ & _ & _ & _ & _ & _ & His & _).
  exists st', wp. split; [done|]. split.
  - unfold when in Hp. destruct (printmessg (e_args e)).
    + apply bind_inv_ok in Hp as (m & w2 & Hm & Hp).
      apply msg_of_inv in Hm as [_ ->]. by inversion Hp.
    + by inversion Hp.
  - rewrite His in H. cbn [sync istate] in H.
    destruct (r_istate rep =? 3); [done|]. by inversion H.
Qed.

(** ** Configuration errors *)

(** C7: a tolerance sequence whose length differs from the number of
    equations makes [odeintr] raise [ValueError] with the world untouched:
    nothing was printed and the solver was never called. *)
Theorem tolerance_length_mismatch_raises
    (dlsodar : list call -> call -> reply) (fuel : nat) (a : odeintr_args)
    (w : world) :
  bad_tol (rtol a) (length (y0 a)) = true
  ∨ bad_tol (atol a) (length (y0 a)) = true ->
  odeintr dlsodar fuel a w = (Raise (ValueError tol_mismatch), w).
Proof.
  intros H. unfold odeintr. apply bind_raise. unfold setup. cbv zeta.
  destruct (bad_tol (rtol a) (length (y0 a))) eqn:Hr.
  - apply bind_raise. by rewrite check_tol_eq, Hr.
  - destruct H as [H|H]; [discriminate|].
    erewrite bind_ok; [|by rewrite check_tol_eq, Hr].
    apply bind_raise. by rewrite check_tol_eq, H.
Qed.

Lemma tolerance_length_mismatch_raises_witness :
  odeintr exact_solver 3
    {| func := "f"; y0 := [1%float; 0%float]; t := [0%float; 1%float];
       args := []; Dfun := None; col_deriv := 0; full_output := false;
       ml := 0; mu := 0; rtol := TolScalar 1%float;
       atol := TolSeq [1%float; 1%float; 1%float]; tcrit := None;
       h0 := 0; hmax := 0; hmin := 0; ixpr := 0; mxstep := 500; mxhnil := 0;
       mxordn := 12; mxords := 5; printmessg := false;
       root_term := []; root_func := None; int_pts := false |} world0
  = (Raise (ValueError tol_mismatch), world0).
Proof.
  apply tolerance_length_mismatch_raises. right. reflexivity.
Defined.

(** C2 (as the code behaves): with [int_pts] set and a non-empty [tcrit],
    line 200 evaluates the name [sets], which the module never imports, so
    the call ends in [NameError] before any merged list exists and before
    the solver is called. *)
Theorem int_pts_with_tcrit_raises_NameError
    (dlsodar : list call -> call -> reply) (fuel : nat) (a : odeintr_args)
    (w : world) :
  int_pts a = true ->
  truthy (tcrit a) = true ->
  bad_tol (rtol a) (length (y0 a)) = false ->
  bad_tol (atol a) (length (y0 a)) = false ->
  odeintr dlsodar fuel a w = (Raise (NameError "sets"), w).
Proof.
  intros Hint Htc Hr Ha. unfold odeintr. apply bind_raise.
  unfold setup. cbv zeta.
  erewrite bind_ok; [|by rewrite check_tol_eq, Hr].
  erewrite bind_ok; [|by rewrite check_tol_eq, Ha].
  apply bind_raise. unfold task_mode. rewrite Hint, Htc.
  apply bind_raise. reflexivity.
Qed.

Lemma int_pts_with_tcrit_raises_NameError_witness :
  odeintr exact_solver 3
    {| func := "f"; y0 := [1%float]; t := [0%float; 1%float];
       args := []; Dfun := None; col_deriv := 0; full_output := false;
       ml := 0; mu := 0; rtol := TolNone; atol := TolNone;
       tcrit := Some [0.5%float];
       h0 := 0; hmax := 0; hmin := 0; ixpr := 0; mxstep := 500; mxhnil := 0;
       mxordn := 12; mxords := 5; printmessg := false;
       root_term := []; root_func := None; int_pts := true |} world0
  = (Raise (NameError "sets"), world0).
Proof.
  apply int_pts_with_tcrit_raises_NameError; reflexivity.
Defined.

(** ** Recording of output points *)

Lemma app_one_neq {A} (l : list A) (x : A) : l ++ [x] ≠ l.
Proof.
  intros H. apply (f_equal length) in H. rewrite length_app in H.
  simpl in H. lia.
Qed.

(** C5: in an iteration whose status is not a failure, the point
    [(treached, y)] is appended to [tout]/[yout] exactly when [treached]
    equals the next requested time, or [itask] is 5, or the status is 3;
    otherwise the traces are left alone.  With [full_output] the diagnostic
    fields are snapshotted at exactly those appends, and the dictionary is
    untouched in every other case. *)
Theorem point_recorded_iff_wanted
    (e : env) (st : locals) (rep : reply) (r : ctrl * locals)
    (w w' : world) (twanted : float) :
  0 <= r_istate rep ->
  t (e_args e) !! tindex st = Some twanted ->
  react e st rep w = (Ok r, w') ->
  let rec := feq (r_t rep) twanted || (itask st =? 5) || (r_istate rep =? 3) in
  ((tout r.2 = tout st ++ [r_t rep] ∧ yout r.2 = yout st ++ [r_y rep])
    <-> rec = true)
  ∧ (rec = false -> tout r.2 = tout st ∧ yout r.2 = yout st)
  ∧ (if rec && full_output (e_args e)
     then snapshotted (sync st rep) (info_dict r.2)
     else info_dict r.2 = info_dict st).
Proof.
  intros Hpos Htw H rec.
  apply react_inv in H as (st' & wp & Hbk & _ & Hrest); [|done].
  apply bookkeep_inv in Hbk
    as (_ & tw & Htw' & Hto & Hyo & Hd & _ & _ & _ & _ & _ & _ & _).
  cbn [sync tindex] in Htw'. rewrite Htw in Htw'.
  inversion Htw'; subst tw; clear Htw'.
  unfold wanted in Hto, Hyo, Hd. cbn [sync itask istate tout yout info_dict] in *.
  fold rec in Hto, Hyo, Hd.
  assert (tout r.2 = tout st' ∧ yout r.2 = yout st'
          ∧ info_dict r.2 = info_dict st') as (-> & -> & ->).
  { destruct (r_istate rep =? 3).
    - apply root_found_inv in Hrest as (i & flag & _ & _ & -> & _). done.
    - by destruct Hrest as [-> _]. }
  rewrite Hto, Hyo. clear Hto Hyo. destruct rec; simpl in *.
  - split; [done|]. split; [done|]. exact Hd.
  - split; [|done]. split; [|done]. intros [Habs _].
    symmetry in Habs. by apply app_one_neq in Habs.
Qed.

Lemma point_recorded_iff_wanted_witness :
  let e := sample_env
             (sample_args [0; 4; 10]%float true false None [] None false)
             None in
  let st := sample_locals 1 in
  let rep := sample_reply 4 2 [] in
  match react e st rep world0 with
  | (Ok r, _) =>
      tout r.2 = [0; 4]%float ∧ yout r.2 = [[1]; [2]]%float
      ∧ snapshotted (sync st rep) (info_dict r.2)
  | _ => False
  end.
Proof.
  intros e st rep.
  destruct (react e st rep world0) as [[r| |] w'] eqn:H;
    [|vm_compute in H; discriminate..].
  destruct (point_recorded_iff_wanted e st rep r world0 w' 4%float)
    as ([_ Hrec] & _ & Hd);
    [apply Z.leb_le; reflexivity|reflexivity|exact H|].
  destruct Hrec as [Hto Hyo]; [reflexivity|].
  split; [exact Hto|]. split; [exact Hyo|]. exact Hd.
Defined.

(** ** One turn of the loop *)

Section Turn.

Variable dlsodar : list call -> call -> reply.

(** A request that returns has asked the solver once, for the [ng] roots of
    [useg], in the present task mode, with a cursor inside [t]; it printed
    nothing. *)
Lemma request_inv e st rep w w1 :
  request dlsodar e st w = (Ok rep, w1) ->
  (tindex st < length (t (e_args e)))%nat
  ∧ console w1 = console w
  ∧ ∃ c, calls w1 = calls w ++ [c] ∧ rep = dlsodar (calls w) c
         ∧ c_ng c = ng e ∧ c_g c = useg e ∧ c_itask c = itask st.
Proof.
  unfold request. cbv zeta. intros H.
  apply bind_inv_ok in H as (tw & w2 & Htw & H).
  apply getitem_inv in Htw as [Htw ->].
  apply bind_inv_ok in H as (narrow & w2 & Hn & H).
  assert (w2 = w) as ->.
  { destruct ((itask st =? 4) || (itask st =? 5)); [|by inversion Hn].
    apply bind_inv_ok in Hn as (n & w3 & Hlen & Hn).
    unfold len_tcrit in Hlen. destruct (tcrit' e); [|discriminate].
    inversion Hlen; subst. by inversion Hn. }
  apply bind_inv_ok in H as (p & w2 & Hp & H).
  assert (w2 = w) as ->.
  { destruct narrow; [|by inversion Hp].
    apply bind_inv_ok in Hp as (c & w3 & Hc & Hp).
    unfold tcrit_at in Hc. destruct (tcrit' e) as [tc|] eqn:Htc; [|discriminate].
    apply getitem_inv in Hc as [Hc ->].
    apply bind_inv_ok in Hp as (rw & w4 & Hrw & Hp).
    unfold setitem in Hrw. case_bool_decide; [|discriminate].
    inversion Hrw; subst.
    apply bind_inv_ok in Hp as (c' & w5 & Hc' & Hp).
    unfold tcrit_at in Hc'. rewrite Htc in Hc'.
    apply getitem_inv in Hc' as [_ ->]. by inversion Hp. }
  unfold call_solver in H. inversion H; subst; clear H.
  split; [by apply lookup_lt_Some in Htw|]. split; [done|].
  eexists. split; [reflexivity|]. done.
Qed.

Lemma loop_break fuel e st st' w w' :
  (tindex st < length (t (e_args e)))%nat ->
  step dlsodar e st w = (Ok (Break, st'), w') ->
  loop dlsodar (S fuel) e st w = (Ok st', w').
Proof.
  intros Hlt Hstep. simpl. apply Nat.ltb_lt in Hlt. rewrite Hlt.
  erewrite bind_ok; [|apply Hstep]. reflexivity.
Qed.

Lemma loop_raise fuel e st ex w w' :
  (tindex st < length (t (e_args e)))%nat ->
  step dlsodar e st w = (Raise ex, w') ->
  loop dlsodar (S fuel) e st w = (Raise ex, w').
Proof.
  intros Hlt Hstep. simpl. apply Nat.ltb_lt in Hlt. rewrite Hlt.
  by apply bind_raise.
Qed.

End Turn.

(** A reply with status 3 in a ready state: the point is recorded, the root
    lists are still as they were, and root selection runs next. *)
Lemma react_root e st rep w :
  r_istate rep = 3 ->
  ready e st rep = true ->
  ∃ st3,
    react e st rep w
    = root_found e st3 (r_y rep) (r_t rep) (r_jroot rep)
        (told (if printmessg (e_args e)
               then ["Integration successful. Root found."] else []) w)
    ∧ tout st3 = tout st ++ [r_t rep] ∧ yout st3 = yout st ++ [r_y rep]
    ∧ t_root st3 = t_root st ∧ y_root st3 = y_root st
    ∧ i_root st3 = i_root st.
Proof.
  intros H3 Hready.
  assert (assoc (r_istate rep) _msgs
          = Some "Integration successful. Root found.") as Hm
    by (by rewrite H3).
  destruct (bookkeep_total e st rep _ Hready Hm) as [st3 Hbk].
  exists st3.
  rewrite (react_success e st rep _ w ltac:(lia) Hm st3 Hbk).
  destruct (bookkeep_inv _ _ _ _ _ _ _ (Hbk w))
    as (_ & tw & _ & Hto & Hyo & _ & _ & _ & His & Htr & Hyr & Hir & _).
  unfold wanted in Hto, Hyo.
  cbn [sync istate itask tout yout t_root y_root i_root] in *.
  rewrite H3 in *. rewrite orb_true_r in Hto, Hyo.
  rewrite His. done.
Qed.

(** ** Root events *)

(** C4: when the call that detects a root selects index [i] and
    [root_term[i]] is 1, the loop ends in that very iteration, whatever is
    left of [t]: no further solver call is made, and the last entries of
    [tout]/[yout] are the time and state of the root event just recorded. *)
Theorem terminating_root_stops_loop
    (dlsodar : list call -> call -> reply) (fuel : nat) (e : env)
    (st : locals) (rep : reply) (w w1 : world) (i : nat) :
  request dlsodar e st w = (Ok rep, w1) ->
  ready e st rep = true ->
  r_istate rep = 3 ->
  index1 (r_jroot rep) = Some i ->
  root_term (e_args e) !! i = Some 1 ->
  ∃ st' w',
    loop dlsodar (S fuel) e st w = (Ok st', w')
    ∧ calls w' = calls w1
    ∧ last (tout st') = Some (r_t rep) ∧ last (yout st') = Some (r_y rep)
    ∧ last (t_root st') = Some (r_t rep)
    ∧ last (y_root st') = Some (r_y rep)
    ∧ last (i_root st') = Some i.
Proof.
  intros Hreq Hready H3 Hi Hflag.
  destruct (request_inv _ _ _ _ _ _ Hreq) as (Hlt & _).
  destruct (react_root e st rep w1 H3 Hready)
    as (st3 & Hreact & Hto & Hyo & _).
  rewrite (root_found_Some _ _ _ _ _ _ _ _ Hi Hflag) in Hreact.
  simpl in Hreact. eexists _, _. split.
  - apply loop_break; [done|]. unfold step.
    erewrite bind_ok; [|apply Hreq]. apply Hreact.
  - cbn [push_root tout yout t_root y_root i_root warned told calls].
    rewrite Hto, Hyo, !last_snoc. done.
Qed.

Lemma terminating_root_stops_loop_witness :
  let dlsodar := scripted [landing 3 [0; 1]] in
  let e := sample_env
             (sample_args [0; 4; 10]%float true true None [0; 1] (Some "g")
                false) None in
  ∃ st' w',
    loop dlsodar 1 e (sample_locals 1) world0 = (Ok st', w')
    ∧ length (calls w') = 1%nat
    ∧ last (tout st') = Some 4%float ∧ last (yout st') = Some [1%float]
    ∧ last (t_root st') = Some 4%float
    ∧ last (y_root st') = Some [1%float]
    ∧ last (i_root st') = Some 1%nat.
Proof.
  intros dlsodar e.
  destruct (request dlsodar e (sample_locals 1) world0) as [[rep| |] w1] eqn:Hreq;
    [|vm_compute in Hreq; discriminate..].
  assert (rep = landing 3 [0; 1]
                  {| c_f := usefunc e; c_y0 := [1%float]; c_t0 := 0;
                     c_tout := 4; c_itol := 1; c_rtol := TolNone;
                     c_atol := TolNone; c_itask := 1; c_istate := 1;
                     c_rwork := replicate 36 0%float;
                     c_iwork := replicate 21 0;
                     c_jac := IdentityJ; c_jt := 2; c_g := useg e;
                     c_ng := 2 |}
          ∧ length (calls w1) = 1%nat) as [Hrep Hw1].
  { vm_compute in Hreq. inversion Hreq. split; reflexivity. }
  destruct (terminating_root_stops_loop dlsodar 0 e (sample_locals 1) rep
              world0 w1 1%nat Hreq)
    as (st' & w' & Hloop & Hcalls & Hlast);
    [rewrite ?Hrep; vm_compute; reflexivity..|].
  exists st', w'. split; [exact Hloop|]. split; [by rewrite Hcalls|].
  by rewrite Hrep in Hlast.
Defined.

(** C6: when the status is 3 and more than one root indicator is 1, the
    driver prints the "Multiple roots" line (after the status message, when
    [printmessg] asks for one), takes the lowest index whose indicator is 1,
    records the root event with that index, and raises nothing: the
    iteration ends as any root iteration does, with [Break] when the flag of
    that index is 1 and [Continue] otherwise. *)
Theorem multiple_roots_lowest_index
    (e : env) (st : locals) (rep : reply) (w : world) :
  r_istate rep = 3 ->
  ready e st rep = true ->
  (1 < count1 (r_jroot rep))%nat ->
  length (r_jroot rep) = length (root_term (e_args e)) ->
  ∃ i flag st',
    r_jroot rep !! i = Some 1
    ∧ (∀ j, (j < i)%nat -> r_jroot rep !! j ≠ Some 1)
    ∧ root_term (e_args e) !! i = Some flag
    ∧ react e st rep w
      = (Ok (if flag =? 1 then Break else Continue, st'),
         told ((if printmessg (e_args e)
                then ["Integration successful. Root found."] else [])
               ++ [multiple_roots (r_jroot rep)]) w)
    ∧ t_root st' = t_root st ++ [r_t rep]
    ∧ y_root st' = y_root st ++ [r_y rep]
    ∧ i_root st' = i_root st ++ [i].
Proof.
  intros H3 Hready Hcount Hlen.
  destruct (count1_pos (r_jroot rep)) as [i Hi]; [lia|].
  destruct (index1_Some _ _ Hi) as [Hat Hlow].
  destruct (lookup_lt_is_Some_2 (root_term (e_args e)) i) as [flag Hflag].
  { rewrite <- Hlen. by apply lookup_lt_Some in Hat. }
  destruct (react_root e st rep w H3 Hready)
    as (st3 & Hreact & _ & _ & Htr & Hyr & Hir).
  rewrite (root_found_Some _ _ _ _ _ _ _ _ Hi Hflag) in Hreact.
  exists i, flag, (push_root st3 (r_t rep) (r_y rep) i).
  split; [done|]. split; [done|]. split; [done|]. split.
  - rewrite Hreact. f_equal. unfold warned, told.
    cbn [console calls].
    destruct (Nat.eqb_spec (count1 (r_jroot rep)) 1); [lia|].
    by rewrite <- app_assoc.
  - cbn [push_root t_root y_root i_root]. by rewrite Htr, Hyr, Hir.
Qed.

Lemma multiple_roots_lowest_index_witness :
  let e := sample_env
             (sample_args [0; 4; 10]%float false true None [0; 0; 0]
                (Some "g") false) None in
  ∃ st',
    react e (sample_locals 1) (sample_reply 3 3 [0; 1; 1]) world0
    = (Ok (Continue, st'),
       told ["Integration successful. Root found.";
             "Multiple roots found at a single point!?! jroot is [0, 1, 1]"]
         world0)
    ∧ t_root st' = [3%float] ∧ y_root st' = [[2%float]]
    ∧ i_root st' = [1%nat].
Proof.
  intros e.
  destruct (multiple_roots_lowest_index e (sample_locals 1)
              (sample_reply 3 3 [0; 1; 1]) world0)
    as (i & flag & st' & Hi & Hlow & Hflag & Hreact & Hroot);
    [reflexivity|reflexivity|vm_compute; lia|reflexivity|].
  assert (i = 1%nat) as ->.
  { destruct i as [|[|i]]; [discriminate|done|].
    exfalso. apply (Hlow 1%nat); [lia|done]. }
  injection Hflag as <-. exists st'. split; [exact Hreact|exact Hroot].
Defined.

(** C10: root selection needs an indicator equal to 1.  When the status is
    3 and no entry of [jroot] is 1 (an all-zero vector, say),
    [jroot.index(1)] raises [ValueError]; nothing catches it, so the loop
    raises too and the traces gathered so far are not returned.  When some
    entry is 1, the same iteration raises nothing. *)
Theorem root_selection_needs_indicator
    (dlsodar : list call -> call -> reply) (fuel : nat) (e : env)
    (st : locals) (rep : reply) (w w1 : world) :
  request dlsodar e st w = (Ok rep, w1) ->
  ready e st rep = true ->
  r_istate rep = 3 ->
  length (r_jroot rep) = length (root_term (e_args e)) ->
  (1 ∉ r_jroot rep ->
   ∃ w', loop dlsodar (S fuel) e st w
         = (Raise (ValueError "list.index(x): x not in list"), w'))
  ∧ (1 ∈ r_jroot rep -> ∃ r w', react e st rep w1 = (Ok r, w')).
Proof.
  intros Hreq Hready H3 Hlen.
  destruct (request_inv _ _ _ _ _ _ Hreq) as (Hlt & _).
  destruct (react_root e st rep w1 H3 Hready) as (st3 & Hreact & _).
  split.
  - intros Hno. apply index1_None in Hno.
    rewrite (root_found_None _ _ _ _ _ _ Hno) in Hreact.
    eexists. apply loop_raise; [done|]. unfold step.
    erewrite bind_ok; [|apply Hreq]. apply Hreact.
  - intros Hin. destruct (index1 (r_jroot rep)) as [i|] eqn:Hi;
      [|by apply index1_None in Hi].
    destruct (index1_Some _ _ Hi) as [Hat _].
    destruct (lookup_lt_is_Some_2 (root_term (e_args e)) i) as [flag Hflag].
    { rewrite <- Hlen. by apply lookup_lt_Some in Hat. }
    rewrite (root_found_Some _ _ _ _ _ _ _ _ Hi Hflag) in Hreact.
    eauto.
Qed.

Lemma root_selection_needs_indicator_witness :
  let dlsodar := scripted [landing 3 [0; 0]] in
  let e := sample_env
             (sample_args [0; 4; 10]%float false false None [1; 0]
                (Some "g") false) None in
  ∃ w', loop dlsodar 1 e (sample_locals 1) world0
        = (Raise (ValueError "list.index(x): x not in list"), w').
Proof.
  intros dlsodar e.
  destruct (request dlsodar e (sample_locals 1) world0) as [[rep| |] w1] eqn:Hreq;
    [|vm_compute in Hreq; discriminate..].
  assert (r_istate rep = 3 ∧ r_jroot rep = [0; 0]
          ∧ r_rwork rep = replicate 36 0%float
          ∧ r_iwork rep = replicate 21 0) as (H3 & Hj & Hrw & Hiw).
  { vm_compute in Hreq. inversion Hreq. done. }
  destruct (root_selection_needs_indicator dlsodar 0 e (sample_locals 1) rep
              world0 w1 Hreq) as [Hraise _].
  - unfold ready, work_ready. by rewrite Hrw, Hiw.
  - exact H3.
  - by rewrite Hj.
  - apply Hraise. rewrite Hj. intros Hin.
    repeat (apply elem_of_cons in Hin as [Hin|Hin]; [discriminate|]).
    by apply elem_of_nil in Hin.
Defined.

(** ** Solver failures *)

Lemma failure_code_message code :
  -7 <= code < 0 -> ∃ m, assoc code _msgs = Some m.
Proof.
  intros H.
  assert (code = -1 ∨ code = -2 ∨ code = -3 ∨ code = -4 ∨ code = -5
          ∨ code = -6 ∨ code = -7) as Hc by lia.
  repeat (destruct Hc as [->|Hc]; [eexists; reflexivity|]).
  subst. eexists. reflexivity.
Qed.

(** C3 (amended): when the solver returns one of the seven failure codes,
    the loop ends in that iteration without raising; the traces, root lists
    and diagnostics gathered before it are what [odeintr] assembles,
    unchanged; and the fixed message of the code is printed, followed by the
    hint line.  The message goes to the console only. *)
Theorem failure_stops_with_partial_outputs
    (dlsodar : list call -> call -> reply) (fuel : nat) (e : env)
    (st : locals) (rep : reply) (w w1 : world) :
  request dlsodar e st w = (Ok rep, w1) ->
  -7 <= r_istate rep < 0 ->
  ∃ m, assoc (r_istate rep) _msgs = Some m
       ∧ loop dlsodar (S fuel) e st w
         = (Ok (sync st rep), told [m; run_with_full_output] w1)
       ∧ outputs e (sync st rep) = outputs e st.
Proof.
  intros Hreq Hcode.
  destruct (failure_code_message _ Hcode) as [m Hm].
  destruct (request_inv _ _ _ _ _ _ Hreq) as (Hlt & _).
  exists m. split; [done|]. split; [|reflexivity].
  apply loop_break; [done|]. unfold step.
  erewrite bind_ok; [|apply Hreq].
  apply react_failure; [lia|done].
Qed.

Lemma failure_stops_with_partial_outputs_witness :
  let dlsodar := scripted [landing (-5) []] in
  let e := sample_env
             (sample_args [0; 4; 10]%float true false None [] None false)
             None in
  ∃ st' w',
    loop dlsodar 1 e (sample_locals 1) world0 = (Ok st', w')
    ∧ console w'
      = ["Repeated convergence failures (perhaps bad Jacobian or tolerances).";
         run_with_full_output]
    ∧ outputs e st' = outputs e (sample_locals 1).
Proof.
  intros dlsodar e.
  destruct (request dlsodar e (sample_locals 1) world0) as [[rep| |] w1] eqn:Hreq;
    [|vm_compute in Hreq; discriminate..].
  assert (r_istate rep = -5 ∧ console w1 = []) as [Hcode Hw1].
  { vm_compute in Hreq. inversion Hreq. done. }
  destruct (failure_stops_with_partial_outputs dlsodar 0 e (sample_locals 1)
              rep world0 w1 Hreq) as (m & Hm & Hloop & Hout).
  - rewrite Hcode. split; [apply Z.leb_le|apply Z.ltb_lt]; reflexivity.
  - rewrite Hcode in Hm. injection Hm as <-.
    eexists _, _. split; [exact Hloop|]. split; [|exact Hout].
    unfold told. cbn [console]. by rewrite Hw1.
Defined.

(** C3 (as stated) fails: a call with [full_output] whose first solver call
    fails with code -1 returns the trajectory and the dictionary, and the
    dictionary has no ['message'] entry at all. *)
Lemma failure_message_not_attached :
  let r := Tuple [Trajectory [[1%float]]; InfoDict info_dict0] in
  (odeintr (scripted [landing (-1) []]) 3
     (sample_args [0; 4; 10]%float true false None [] None false) world0).1
  = Ok r
  ∧ ¬ message_attached (-1) r.
Proof.
  intros r. split; [vm_compute; reflexivity|].
  intros (os & d & m & Hr & Hin & _ & Hd). subst r. injection Hr as <-.
  apply elem_of_cons in Hin as [Hin|Hin]; [discriminate|].
  apply elem_of_cons in Hin as [Hin|Hin]; [|by apply elem_of_nil in Hin].
  injection Hin as ->. vm_compute in Hd. discriminate.
Qed.

(** The same after a recorded step: the dictionary still carries the success
    message of that step, not the message of the failure that ended the run. *)
Lemma failure_leaves_success_message :
  ∃ y d,
    (odeintr (scripted [landing 2 []; landing (-1) []]) 3
       (sample_args [0; 4; 10]%float true false None [] None false) world0).1
    = Ok (Tuple [Trajectory y; InfoDict d])
    ∧ d !! "message" = Some (VStr "Integration successful.").
Proof.
  eexists _, _. split; [vm_compute; reflexivity|]. vm_compute. reflexivity.
Qed.

(** ** The critical-time cursor *)

(** In task mode 4 every iteration that does not fail moves the
    critical-time cursor, wherever the solver stopped. *)
Lemma mode4_always_advances e st rep r w w' :
  itask st = 4 ->
  0 <= r_istate rep ->
  react e st rep w = (Ok r, w') ->
  tcrit_ii r.2 = S (tcrit_ii st).
Proof.
  intros H4 Hpos H.
  apply react_inv in H as (st' & wp & Hbk & _ & Hrest); [|done].
  apply bookkeep_inv in Hbk
    as (_ & tw & _ & _ & _ & _ & _ & [Hci _] & _).
  unfold crit_hit in Hci. cbn [sync itask tcrit_ii] in Hci.
  rewrite H4 in Hci. simpl in Hci.
  destruct (r_istate rep =? 3).
  - apply root_found_inv in Hrest as (i & flag & _ & _ & -> & _). done.
  - by destruct Hrest as [-> _].
Qed.

(** In task mode 5 the cursor moves exactly when the time reached equals the
    critical time at the cursor. *)
Lemma mode5_advances_iff_hit e st rep r w w' :
  itask st = 5 ->
  0 <= r_istate rep ->
  react e st rep w = (Ok r, w') ->
  ∃ c, (tc ← tcrit' e; tc !! tcrit_ii st) = Some c
       ∧ tcrit_ii r.2 = (if feq (r_t rep) c
                         then S (tcrit_ii st) else tcrit_ii st).
Proof.
  intros H5 Hpos H. unfold react in H. cbv zeta in H. cbn [sync istate] in H.
  destruct (Z.ltb_spec (r_istate rep) 0) as [|_]; [lia|].
  apply bind_inv_ok in H as ([] & wp & _ & H).
  apply bind_inv_ok in H as (st' & w1 & Hbk & H).
  assert (∃ c, (tc ← tcrit' e; tc !! tcrit_ii st) = Some c) as [c Hc].
  { unfold bookkeep in Hbk. cbv zeta in Hbk.
    apply bind_inv_ok in Hbk as (tw & w2 & _ & Hbk).
    apply bind_inv_ok in Hbk as (st1 & w3 & Hrec & Hbk).
    assert (itask st1 = 5 ∧ tcrit_ii st1 = tcrit_ii st) as [Hit Hci].
    { cbn [sync itask istate] in Hrec.
      destruct (_ || _ || _) in Hrec.
      - unfold record_point in Hrec.
        apply bind_inv_ok in Hrec as (d & w4 & _ & Hrec).
        by inversion Hrec.
      - by inversion Hrec. }
    apply bind_inv_ok in Hbk as (tw' & w4 & _ & Hbk).
    apply bind_inv_ok in Hbk as (adv & w5 & Hadv & _).
    unfold reached_critical in Hadv.
    assert (itask (if feq (r_t rep) tw' then next_tindex st1 else st1) = 5
            ∧ tcrit_ii (if feq (r_t rep) tw' then next_tindex st1 else st1)
              = tcrit_ii st) as [Hit' Hci']
      by (by destruct (feq (r_t rep) tw')).
    rewrite Hit', Hci' in Hadv. simpl in Hadv.
    apply bind_inv_ok in Hadv as (c & w6 & Hc & _).
    unfold tcrit_at in Hc. destruct (tcrit' e) as [tc|]; [|discriminate].
    apply getitem_inv in Hc as [Hc _]. by exists c. }
  exists c. split; [done|].
  apply bookkeep_inv in Hbk
    as (_ & tw & _ & _ & _ & _ & _ & [Hci _] & His & _).
  unfold crit_hit in Hci. cbn [sync itask tcrit_ii] in Hci.
  rewrite H5, Hc in Hci. simpl in Hci.
  destruct (istate st' =? 3).
  - apply root_found_inv in H as (i & flag & _ & _ & -> & _). done.
  - by inversion H.
Qed.

(** C1 (as the code behaves): in task mode 4, with the critical time 9 still
    pending, a reply that stopped at time 4 moves the cursor past 9 all the
    same; that exhausts the list, so [itask] drops to 1. *)
Theorem mode4_cursor_skips_unreached_critical_time :
  let e := sample_env
             (sample_args [0; 4; 10]%float false false (Some [9%float]) []
                None false) (Some [9%float]) in
  let st := sample_locals 4 in
  let rep := sample_reply 4 2 [] in
  crit_ready e st = true
  ∧ tcrit_at e (tcrit_ii st) world0 = (Ok 9%float, world0)
  ∧ feq (r_t rep) 9 = false
  ∧ ∃ st', react e st rep world0 = (Ok (Continue, st'), world0)
           ∧ tcrit_ii st' = 1%nat ∧ itask st' = 1.
Proof.
  intros e st rep. split; [reflexivity|]. split; [reflexivity|].
  split; [reflexivity|]. eexists. split; [vm_compute; reflexivity|].
  split; reflexivity.
Qed.

(** The same from the caller's side: with [tcrit = [9]] and output times 4
    and 10, the second solver call is made in task mode 1 for time 10; the
    critical time 9 binds no call that could step over it. *)
Lemma tcrit_dropped_after_first_output :
  map (λ c, (c_itask c, c_tout c))
      (calls (odeintr exact_solver 5
                (sample_args [0; 4; 10]%float false false (Some [9%float]) []
                   None false) world0).2)
  = [(4, 4%float); (1, 10%float)].
Proof. vm_compute. reflexivity. Qed.

(** ** What the set-up leaves behind *)

Ltac inv_bind H :=
  let a := fresh "a" in
  let w := fresh "w" in
  let Ha := fresh "Hstep" in
  apply bind_inv_ok in H as (a & w & Ha & H).

Lemma zeros_inv {A} (zero : A) n l w w' :
  zeros zero n w = (Ok l, w') -> w' = w ∧ l = replicate (Z.to_nat n) zero.
Proof. unfold zeros. destruct (n <? 0); intros H; by inversion H. Qed.

Lemma setitem_inv {A} (l : list A) i x l' w w' :
  setitem l i x w = (Ok l', w') -> w' = w ∧ l' = <[i := x]> l.
Proof. unfold setitem. case_bool_decide; intros Hs; by inversion Hs. Qed.

Lemma check_tol_inv x n b w w' :
  check_tol x n w = (Ok b, w') -> w' = w.
Proof. rewrite check_tol_eq. destruct (bad_tol x n); intros H; by inversion H. Qed.

Lemma task_mode_inv a mode w w' :
  task_mode a w = (Ok mode, w') ->
  w' = w
  ∧ (int_pts a = false -> mode = (if truthy (tcrit a) then 4 else 1, tcrit a))
  ∧ (int_pts a = true -> mode = (5, Some (tail (t a))) ∧ truthy (tcrit a) = false).
Proof.
  unfold task_mode. destruct (int_pts a).
  - destruct (truthy (tcrit a)).
    + intros H. apply bind_inv_ok in H as ([] & w1 & Hg & _).
      vm_compute in Hg. discriminate.
    + intros H. inversion H; subst. done.
  - intros H. inversion H; subst. done.
Qed.

(** A set-up that returns has printed nothing and called nothing; it keeps
    the arguments, counts the roots by [len(root_term)], wraps [root_func]
    only when there are roots, and starts the traces at [(t[0], y0)] with
    empty root lists. *)
Lemma setup_inv a e st w w' :
  setup a w = (Ok (e, st), w') ->
  w' = w
  ∧ e_args e = a
  ∧ ng e = length (root_term a)
  ∧ useg e = match root_func a with
             | Some g => if (0 <? length (root_term a))%nat
                         then UseG g (args a) else IdentityG
             | None => IdentityG
             end
  ∧ (int_pts a = false ->
     itask st = (if truthy (tcrit a) then 4 else 1) ∧ tcrit' e = tcrit a)
  ∧ (int_pts a = true -> itask st = 5 ∧ tcrit' e = Some (tail (t a)))
  ∧ tindex st = 1%nat ∧ tcrit_ii st = 0%nat ∧ istate st = 1
  ∧ t (e_args e) !! 0%nat = Some (t0 e)
  ∧ tout st = [t0 e] ∧ yout st = [y0 a]
  ∧ t_root st = [] ∧ y_root st = [] ∧ i_root st = []
  ∧ info_dict st = info_dict0.
Proof.
  unfold setup. cbv zeta. intros H.
  inv_bind H. apply check_tol_inv in Hstep as ->.
  inv_bind H. apply check_tol_inv in Hstep as ->.
  inv_bind H. apply task_mode_inv in Hstep as (-> & Hmode0 & Hmode1).
  inv_bind H. apply zeros_inv in Hstep as (-> & _).
  inv_bind H. apply zeros_inv in Hstep as (-> & _).
  do 10 (inv_bind H; apply setitem_inv in Hstep as (-> & _)).
  inv_bind H. apply getitem_inv in Hstep as (Ht0 & ->).
  inversion H; subst; clear H. cbn.
  split; [done|]. split; [done|]. split; [done|]. split; [done|].
  split; [intros Hi; by rewrite (Hmode0 Hi)|].
  split; [intros Hi; destruct (Hmode1 Hi) as [-> _]; done|].
  done.
Qed.

(** ** The shape of the result *)

Lemma outputs_shape e st :
  let roots := (0 <? ng e)%nat in
  shape (outputs e st)
  = [trajectory]
    ++ (if int_pts (e_args e) || roots then [timeTrace] else [])
    ++ (if roots then [rootTimes; rootStates; rootIndices] else [])
    ++ (if full_output (e_args e) then [diagnosticsDict] else [])
  ∧ ((∃ o, outputs e st = Single o)
     <-> int_pts (e_args e) || roots || full_output (e_args e) = false).
Proof.
  unfold outputs. cbv zeta.
  destruct (int_pts (e_args e)), (0 <? ng e)%nat, (full_output (e_args e));
    simpl; (split; [reflexivity|]);
    (split; [intros [o Ho]; by inversion Ho|intros Hb; try discriminate; eauto]).
Qed.

(** What a returning call returns: the tuple assembled from the arguments,
    the number of roots and the final state of the loop. *)
Lemma odeintr_returns_outputs
    (dlsodar : list call -> call -> reply) fuel a r w w' :
  odeintr dlsodar fuel a w = (Ok r, w') ->
  ∃ e st', e_args e = a ∧ ng e = length (root_term a) ∧ r = outputs e st'.
Proof.
  unfold odeintr. intros H.
  apply bind_inv_ok in H as ([e st] & w1 & Hsetup & H).
  apply setup_inv in Hsetup as (-> & Hargs & Hng & _).
  apply bind_inv_ok in H as (st' & w2 & _ & H).
  inversion H; subst r w2; clear H. by exists e, st'.
Qed.

(** C8: a call that returns gives the trajectory first; then [tout] when
    [int_pts] is set or [root_term] is not empty; then [t_root], [y_root],
    [i_root], in this order, when [root_term] is not empty; then the
    dictionary, last, when [full_output] is set.  The bare trajectory is
    returned, not a 1-tuple, when nothing else was asked for.  The shape is
    always one of the six documented ones. *)
Theorem result_shape
    (dlsodar : list call -> call -> reply) (fuel : nat) (a : odeintr_args)
    (r : pyresult) (w w' : world) :
  odeintr dlsodar fuel a w = (Ok r, w') ->
  let roots := (0 <? length (root_term a))%nat in
  shape r
  = [trajectory]
    ++ (if int_pts a || roots then [timeTrace] else [])
    ++ (if roots then [rootTimes; rootStates; rootIndices] else [])
    ++ (if full_output a then [diagnosticsDict] else [])
  ∧ ((∃ o, r = Single o) <-> int_pts a || roots || full_output a = false)
  ∧ shape r ∈ documented_shapes.
Proof.
  intros H. cbv zeta.
  apply odeintr_returns_outputs in H as (e & st' & Hargs & Hng & ->).
  destruct (outputs_shape e st') as [Hshape Hsingle].
  rewrite Hargs, Hng in Hshape, Hsingle.
  split; [exact Hshape|]. split; [exact Hsingle|].
  rewrite Hshape. unfold documented_shapes.
  destruct (int_pts a), (0 <? length (root_term a))%nat, (full_output a);
    simpl; repeat first [left | right].
Qed.

Lemma result_shape_witness :
  let a := sample_args [0; 4; 10]%float true false None [0; 1] (Some "g")
             false in
  match (odeintr (scripted [landing 3 [0; 1]]) 5 a world0).1 with
  | Ok r =>
      shape r = [trajectory; timeTrace; rootTimes; rootStates; rootIndices;
                 diagnosticsDict]
  | _ => False
  end.
Proof.
  intros a.
  destruct (odeintr (scripted [landing 3 [0; 1]]) 5 a world0) as [[r| |] w']
    eqn:H; [|vm_compute in H; discriminate..].
  exact (proj1 (result_shape _ _ _ _ _ _ H)).
Defined.

(** ** Which solver calls a computation makes *)

Lemma asks_ret {A} P (a : A) : asks P (ret a).
Proof. intros w. exists []. by rewrite app_nil_r. Qed.

Lemma asks_raise {A} P e : asks P (@raise A e).
Proof. intros w. exists []. by rewrite app_nil_r. Qed.

Lemma asks_out_of_fuel {A} P : asks P (@out_of_fuel A).
Proof. intros w. exists []. by rewrite app_nil_r. Qed.

Lemma asks_print P s : asks P (print s).
Proof. intros w. exists []. by rewrite app_nil_r. Qed.

Lemma asks_bind {A B} P (m : Py A) (k : A -> Py B) :
  asks P m -> (∀ a, asks P (k a)) -> asks P (bind m k).
Proof.
  intros Hm Hk w. unfold bind. destruct (Hm w) as (cs & Hcs & HP).
  destruct (m w) as [[a| |] w1]; simpl in Hcs; [|by exists cs..].
  destruct (Hk a w1) as (cs' & Hcs' & HP'). exists (cs ++ cs').
  rewrite Hcs', Hcs, app_assoc. split; [done|by apply Forall_app].
Qed.

Ltac asks :=
  repeat first
    [ apply asks_ret | apply asks_raise | apply asks_print
    | apply asks_out_of_fuel
    | apply asks_bind; [|intros ?]
    | match goal with
      | |- asks _ (if ?b then _ else _) => destruct b
      | |- asks _ (match ?x with _ => _ end) => destruct x
      end ].

Lemma asks_getitem {A} P (l : list A) i : asks P (getitem l i).
Proof. unfold getitem. asks. Qed.

Lemma asks_setitem {A} P (l : list A) i x : asks P (setitem l i x).
Proof. unfold setitem. asks. Qed.

Lemma asks_msg_of P i : asks P (msg_of i).
Proof. unfold msg_of. asks. Qed.

Lemma asks_snapshot {A} P (inj : A -> num) vars work d :
  asks P (snapshot inj vars work d).
Proof.
  revert d. induction vars as [|[k i] vs IH]; intros d; simpl; [asks|].
  apply asks_bind; [|done]. unfold dict_append.
  asks. apply asks_getitem.
Qed.

Lemma asks_bookkeep P e st y treached : asks P (bookkeep e st y treached).
Proof.
  unfold bookkeep. cbv zeta. apply asks_bind; [apply asks_getitem|intros tw].
  apply asks_bind.
  { destruct (_ || _ || _); [|asks]. unfold record_point.
    apply asks_bind; [|intros; asks].
    destruct (full_output (e_args e)); [|asks]. unfold diagnostics.
    apply asks_bind; [apply asks_snapshot|intros].
    apply asks_bind; [apply asks_snapshot|intros].
    apply asks_bind; [apply asks_msg_of|intros]. asks. }
  intros st1. apply asks_bind; [apply asks_getitem|intros tw'].
  apply asks_bind.
  { unfold reached_critical, tcrit_at. asks. apply asks_getitem. }
  intros [|]; [|asks]. unfold next_tcrit, len_tcrit. asks.
Qed.

Lemma asks_react P e st rep : asks P (react e st rep).
Proof.
  unfold react. cbv zeta. destruct (_ <? 0).
  - apply asks_bind; [apply asks_msg_of|intros]. asks.
  - apply asks_bind.
    { unfold when. destruct (printmessg (e_args e)); [|asks].
      apply asks_bind; [apply asks_msg_of|intros]. asks. }
    intros _. apply asks_bind; [apply asks_bookkeep|intros st'].
    destruct (_ =? 3); [|asks]. unfold root_found.
    apply asks_bind; [unfold when; asks|intros _].
    apply asks_bind; [asks|intros i].
    apply asks_bind; [apply asks_getitem|intros]. asks.
Qed.

Lemma asks_setup P a : asks P (setup a).
Proof.
  unfold setup. cbv zeta.
  do 2 (apply asks_bind; [unfold check_tol; asks|intros ?]).
  apply asks_bind; [unfold task_mode, global; asks|intros ?].
  do 2 (apply asks_bind; [unfold zeros; asks|intros ?]).
  do 10 (apply asks_bind; [apply asks_setitem|intros ?]).
  apply asks_bind; [apply asks_getitem|intros ?]. asks.
Qed.

Section Calls.

Variable dlsodar : list call -> call -> reply.

Lemma asks_request e st : asks (for_roots_of e) (request dlsodar e st).
Proof.
  unfold request. cbv zeta.
  apply asks_bind; [apply asks_getitem|intros tw].
  apply asks_bind; [unfold len_tcrit; asks|intros narrow].
  apply asks_bind.
  { destruct narrow; [|asks]. unfold tcrit_at.
    destruct (tcrit' e); [|asks].
    apply asks_bind; [apply asks_getitem|intros].
    apply asks_bind; [apply asks_setitem|intros].
    apply asks_bind; [apply asks_getitem|intros]. asks. }
  intros p w. eexists [_]. split; [reflexivity|].
  apply Forall_singleton. done.
Qed.

Lemma asks_loop fuel e st : asks (for_roots_of e) (loop dlsodar fuel e st).
Proof.
  revert st. induction fuel as [|fuel IH]; intros st; simpl.
  - asks.
  - destruct (_ <? _)%nat; [|asks].
    apply asks_bind.
    + unfold step. apply asks_bind; [apply asks_request|intros rep].
      apply asks_react.
    + intros [[|] st']; simpl; [apply IH|asks].
Qed.

(** Without roots ([ng = 0]) and with a solver that reports no root when
    asked for none, an iteration that returns leaves the root lists alone,
    breaks only on a failure status, and, outside task mode 5, appends a
    point exactly when it moves the output cursor. *)
Lemma step_without_roots e st r w w' :
  ng e = 0%nat ->
  (∀ h c, c_ng c = 0%nat -> r_istate (dlsodar h c) ≠ 3) ->
  step dlsodar e st w = (Ok r, w') ->
  t_root r.2 = t_root st ∧ y_root r.2 = y_root st ∧ i_root r.2 = i_root st
  ∧ (r.1 = Break -> istate r.2 < 0)
  ∧ (tindex st <= tindex r.2 <= length (t (e_args e)))%nat
  ∧ (itask st ≠ 5 ->
     itask r.2 ≠ 5
     ∧ (length (tout st) = tindex st -> length (tout r.2) = tindex r.2)).
Proof.
  intros Hng Hsolver H. unfold step in H.
  apply bind_inv_ok in H as (rep & w1 & Hreq & H).
  destruct (request_inv _ _ _ _ _ _ Hreq)
    as (Hlt & _ & c & _ & Hrep & Hc & _).
  assert (r_istate rep ≠ 3) as Hno3.
  { rewrite Hrep. apply Hsolver. by rewrite Hc. }
  destruct (Z.ltb_spec (r_istate rep) 0) as [Hneg|Hpos].
  - destruct (assoc (r_istate rep) _msgs) as [m|] eqn:Hm.
    + rewrite (react_failure _ _ _ _ _ Hneg Hm) in H.
      inversion H; subst r; clear H. cbn.
      repeat (split; [done|]). split; [lia|]. done.
    + unfold react in H. cbv zeta in H. cbn [sync istate] in H.
      destruct (Z.ltb_spec (r_istate rep) 0) as [_|]; [|lia].
      unfold bind, msg_of in H. rewrite Hm in H. discriminate.
  - apply react_inv in H as (st' & wp & Hbk & _ & Hrest); [|done].
    apply Z.eqb_neq in Hno3. rewrite Hno3 in Hrest.
    destruct Hrest as [-> ->]. cbn [fst snd].
    apply bookkeep_inv in Hbk
      as (_ & tw & Htw & Hto & _ & _ & Hti & [_ Hit] & _ & Htr & Hyr & Hir & _).
    unfold wanted in Hto.
    cbn [sync itask istate tindex tcrit_ii tout t_root y_root i_root] in *.
    rewrite Hno3, orb_false_r in Hto.
    split; [done|]. split; [done|]. split; [done|]. split; [done|].
    split; [rewrite Hti; destruct (feq (r_t rep) tw); lia|].
    intros Hn5. split.
    + rewrite Hit. destruct (_ && _); [done|done].
    + intros Hlen. rewrite Hto, Hti.
      apply Z.eqb_neq in Hn5. rewrite Hn5, orb_false_r.
      destruct (feq (r_t rep) tw); [|done].
      rewrite length_app. simpl. lia.
Qed.

Lemma loop_without_roots fuel e :
  ng e = 0%nat ->
  (∀ h c, c_ng c = 0%nat -> r_istate (dlsodar h c) ≠ 3) ->
  ∀ st st' w w',
    loop dlsodar fuel e st w = (Ok st', w') ->
    (tindex st <= length (t (e_args e)))%nat ->
    t_root st' = t_root st ∧ y_root st' = y_root st ∧ i_root st' = i_root st
    ∧ ((length (t (e_args e)) <= tindex st')%nat ∨ istate st' < 0)
    ∧ (tindex st' <= length (t (e_args e)))%nat
    ∧ (itask st ≠ 5 -> length (tout st) = tindex st ->
       length (tout st') = tindex st').
Proof.
  intros Hng Hsolver. induction fuel as [|fuel IH]; intros st st' w w' H Hle;
    simpl in H.
  - destruct (Nat.ltb_spec (tindex st) (length (t (e_args e))));
      [discriminate|].
    inversion H; subst. repeat (split; [done|]). split; [left; lia|]. done.
  - destruct (Nat.ltb_spec (tindex st) (length (t (e_args e)))); cycle 1.
    { inversion H; subst. repeat (split; [done|]). split; [left; lia|]. done. }
    apply bind_inv_ok in H as (r & w1 & Hstep & H).
    destruct (step_without_roots _ _ _ _ _ Hng Hsolver Hstep)
      as (Htr & Hyr & Hir & Hbrk & Hti & Hmode).
    destruct r as [[|] st1]; cbn [fst snd] in *.
    + destruct (IH _ _ _ _ H) as (Htr' & Hyr' & Hir' & Hend & Hle' & Hlen');
        [lia|].
      rewrite Htr', Hyr', Hir'. repeat (split; [done|]).
      intros Hn5 Hlen. destruct (Hmode Hn5) as [Hn5' Hlen1]. by apply Hlen'; [|apply Hlen1].
    + inversion H; subst. repeat (split; [done|]).
      split; [right; by apply Hbrk|]. split; [lia|].
      intros Hn5 Hlen. by apply Hmode.
Qed.

End Calls.

(** ** [root_func] without [root_term] *)

(** C9 (as stated) fails: with [root_func] given, [root_term] empty and
    [int_pts] set, the result does hold the time trace. *)
Lemma root_func_without_root_term_keeps_time_trace :
  ∃ r w',
    odeintr exact_solver 3
      (sample_args [0; 4]%float false false None [] (Some "g") true) world0
    = (Ok r, w')
    ∧ has_time_trace r.
Proof.
  eexists _, _. split; [vm_compute; reflexivity|].
  eexists _, _. split; [reflexivity|]. right. left.
Qed.

(** C9 (amended): when [root_func] is given and [root_term] is empty,
    every solver call is made with [ng = 0] and the identity in place of the
    root function; if the solver reports no root when asked for none, the
    root lists stay empty, the loop ends only by running out of requested
    times or on a failure status, and outside [int_pts] mode the trace has
    one point per output time reached; the result holds no root list, and
    holds the time trace exactly when [int_pts] is set. *)
Theorem root_func_without_root_term
    (dlsodar : list call -> call -> reply) (fuel : nat) (a : odeintr_args)
    (w : world) :
  is_Some (root_func a) ->
  root_term a = [] ->
  (∃ cs, calls (odeintr dlsodar fuel a w).2 = calls w ++ cs
         ∧ Forall (λ c, c_ng c = 0%nat ∧ c_g c = IdentityG) cs)
  ∧ ((∀ h c, c_ng c = 0%nat -> r_istate (dlsodar h c) ≠ 3) ->
     ∀ e st w1 st' w',
       setup a w = (Ok (e, st), w1) ->
       loop dlsodar fuel e st w1 = (Ok st', w') ->
       t_root st' = [] ∧ y_root st' = [] ∧ i_root st' = []
       ∧ ((length (t a) <= tindex st')%nat ∨ istate st' < 0)
       ∧ (int_pts a = false ->
          length (tout st') = tindex st'
          ∧ (tindex st' <= length (t a))%nat))
  ∧ (∀ r w', odeintr dlsodar fuel a w = (Ok r, w') ->
       shape r = [trajectory]
                 ++ (if int_pts a then [timeTrace] else [])
                 ++ (if full_output a then [diagnosticsDict] else [])).
Proof.
  intros [g Hg] Hterm. split; [|split].
  - unfold odeintr. unfold bind at 1.
    destruct (asks_setup (λ _, False) a w) as (cs0 & Hcs0 & HF).
    assert (cs0 = []) as -> by (by destruct cs0; [|inversion HF]).
    rewrite app_nil_r in Hcs0.
    destruct (setup a w) as [[[e st]| |] w1] eqn:Hsetup;
      cbn [snd] in *; try (exists []; by rewrite app_nil_r).
    apply setup_inv in Hsetup as (-> & _ & Hng & Huseg & _).
    rewrite Hg, Hterm in Huseg. rewrite Hterm in Hng. simpl in Hng, Huseg.
    cbn [fst snd].
    destruct (asks_loop dlsodar fuel e st w) as (cs & Hcs & HP).
    exists cs. split.
    + unfold bind. destruct (loop dlsodar fuel e st w) as [[st'| |] w2]; done.
    + eapply Forall_impl; [exact HP|]. intros c [Hc1 Hc2].
      by rewrite Hc1, Hc2, Hng, Huseg.
  - intros Hsolver e st w1 st' w' Hsetup Hloop.
    apply setup_inv in Hsetup
      as (-> & Hargs & Hng & _ & Hmode & _ & Hti & _ & _ & Ht0 & Hto & _
          & Htr & Hyr & Hir & _).
    rewrite Hterm in Hng. simpl in Hng.
    assert (tindex st <= length (t (e_args e)))%nat as Hle.
    { rewrite Hti. apply lookup_lt_Some in Ht0. lia. }
    destruct (loop_without_roots dlsodar fuel e Hng Hsolver _ _ _ _ Hloop Hle)
      as (Htr' & Hyr' & Hir' & Hend & Hle' & Hlen).
    rewrite Hargs in Hend, Hle'.
    rewrite Htr', Hyr', Hir'. repeat (split; [done|]).
    intros Hint. split; [|done]. destruct (Hmode Hint) as [Hit _].
    apply Hlen; [|by rewrite Hto, Hti].
    rewrite Hit. by destruct (truthy (tcrit a)).
  - intros r w' H.
    apply odeintr_returns_outputs in H as (e & st' & Hargs & Hng & ->).
    destruct (outputs_shape e st') as [Hshape _].
    rewrite Hshape, Hargs, Hng, Hterm. simpl. by rewrite orb_false_r.
Qed.

Lemma root_func_without_root_term_witness :
  let a := sample_args [0; 4; 10]%float true false None [] (Some "g") false in
  (∃ cs, calls (odeintr exact_solver 5 a world0).2 = [] ++ cs
         ∧ Forall (λ c, c_ng c = 0%nat ∧ c_g c = IdentityG) cs)
  ∧ match (odeintr exact_solver 5 a world0).1 with
    | Ok r => shape r = [trajectory; diagnosticsDict]
    | _ => False
    end.
Proof.
  intros a.
  destruct (root_func_without_root_term exact_solver 5 a world0)
    as (Hcalls & _ & Hshape); [by eexists|reflexivity|].
  split; [exact Hcalls|].
  destruct (odeintr exact_solver 5 a world0) as [[r| |] w'] eqn:H;
    [|vm_compute in H; discriminate..].
  exact (Hshape r w' eq_refl).
Defined.

(** ** The loop invariant behind [ready] *)

Lemma snapshotted_info_ready st d :
  snapshotted st d -> info_ready d = true.
Proof.
  intros (Hr & Hi & _). unfold info_ready. apply forallb_forall.
  intros [key idx] Hin. apply list_elem_of_In, elem_of_app in Hin.
  unfold is_list. simpl. destruct Hin as [Hin|Hin].
  - destruct (Hr key idx Hin) as (l & x & _ & _ & ->). done.
  - destruct (Hi key idx Hin) as (l & x & _ & _ & ->). done.
Qed.

(** A returning set-up starts the loop on track. *)
Lemma setup_on_track a e st w w' :
  setup a w = (Ok (e, st), w') -> on_track e st.
Proof.
  intros H. apply setup_inv in H
    as (_ & Hargs & _ & _ & Hmode0 & Hmode1 & Hti & Hci & _ & _ & _ & _ & _
        & _ & _ & Hd).
  unfold on_track. rewrite Hd, Hti, Hci, Hargs.
  split; [by vm_compute|].
  destruct (int_pts a).
  - destruct Hmode1 as [-> ->]; [done|].
    split; [auto|]. split; [discriminate|]. done.
  - destruct Hmode0 as [-> ->]; [done|].
    destruct (tcrit a) as [[|c tc]|]; simpl; (split; [auto|]);
      (split; [|discriminate]); try discriminate.
    intros _. eexists. split; [done|]. simpl. lia.
Qed.

(** On track, with the output cursor inside [t], the state is ready for any
    reply whose work arrays reach the diagnostic slots. *)
Lemma on_track_ready e st rep :
  on_track e st ->
  (tindex st < length (t (e_args e)))%nat ->
  (full_output (e_args e) = true -> work_ready rep = true) ->
  ready e st rep = true.
Proof.
  intros (Hinfo & Hmodes & H4 & H5) Hlt Hwork. unfold ready.
  apply Nat.ltb_lt in Hlt as Hlt'. rewrite Hlt', Hinfo. simpl.
  assert (crit_ready e st = true) as ->.
  { unfold crit_ready. destruct Hmodes as [H1|[Hm|Hm]]; rewrite ?H1, ?Hm.
    - done.
    - destruct (H4 Hm) as (tc & -> & Hii). simpl. by apply Nat.ltb_lt.
    - destruct (H5 Hm) as (-> & Hti). simpl. apply Nat.ltb_lt.
      destruct (t (e_args e)); simpl in *; lia. }
  simpl. destruct (full_output (e_args e)); [|done].
  by rewrite Hwork.
Qed.

(** Every iteration that returns keeps the loop on track. *)
Lemma react_on_track e st rep r w w' :
  on_track e st ->
  react e st rep w = (Ok r, w') ->
  on_track e r.2.
Proof.
  intros (Hinfo & Hmodes & H4 & H5) H.
  destruct (Z.ltb_spec (r_istate rep) 0) as [Hneg|Hpos].
  - destruct (assoc (r_istate rep) _msgs) as [m|] eqn:Hm.
    + rewrite (react_failure _ _ _ _ _ Hneg Hm) in H.
      inversion H; subst r; clear H. done.
    + unfold react in H. cbv zeta in H. cbn [sync istate] in H.
      destruct (Z.ltb_spec (r_istate rep) 0) as [_|]; [|lia].
      unfold bind, msg_of in H. rewrite Hm in H. discriminate.
  - apply react_inv in H as (st' & wp & Hbk & _ & Hrest); [|done].
    assert (info_dict r.2 = info_dict st' ∧ itask r.2 = itask st'
            ∧ tcrit_ii r.2 = tcrit_ii st' ∧ tindex r.2 = tindex st')
      as (Hd' & Hit' & Hci' & Hti').
    { destruct (r_istate rep =? 3).
      - apply root_found_inv in Hrest as (i & flag & _ & _ & -> & _). done.
      - by destruct Hrest as [-> _]. }
    unfold on_track. rewrite Hd', Hit', Hci', Hti'. clear Hd' Hit' Hci' Hti'.
    apply bookkeep_inv in Hbk
      as (_ & tw & Htw & _ & _ & Hd & Hti & [Hci Hit] & _).
    cbn [sync itask istate tindex tcrit_ii info_dict] in *.
    split.
    { destruct (_ && _); [by eapply snapshotted_info_ready|by rewrite Hd]. }
    rewrite Hit, Hci, Hti. clear Hit Hci Hti Hd.
    unfold crit_hit. cbn [sync itask tcrit_ii tindex].
    destruct Hmodes as [H1|[Hm|Hm]].
    + rewrite H1. simpl. split; [auto|]. split; intros; discriminate.
    + rewrite Hm. simpl. destruct (H4 Hm) as (tc & Htc & Hii).
      rewrite Htc. simpl. case_bool_decide as Hlast.
      * split; [auto|]. split; intros; discriminate.
      * split; [auto|]. split; [|intros; discriminate].
        intros _. exists tc. split; [done|].
        assert (S (tcrit_ii st) ≠ length tc) by (intros Heq; apply Hlast; by rewrite Heq).
        lia.
    + rewrite Hm. simpl. destruct (H5 Hm) as (Htc & Hidx).
      rewrite Htc. simpl. rewrite lookup_tail, <- Hidx, Htw.
      destruct (feq (r_t rep) tw); simpl.
      * case_bool_decide.
        -- split; [auto|]. split; intros; discriminate.
        -- split; [auto|]. split; [intros; discriminate|].
           intros _. split; [done|]. by rewrite Hidx.
      * split; [auto|]. split; [intros; discriminate|]. done.
Qed.

(** In a call with [int_pts] the loop is in task mode 5 whenever it is about
    to run an iteration: mode 5 is left only with the last requested time. *)
Lemma react_keeps_mode5 e st rep r w w' :
  on_track e st ->
  itask st = 5 ->
  react e st rep w = (Ok r, w') ->
  itask r.2 = 5 ∨ (length (t (e_args e)) <= tindex r.2)%nat.
Proof.
  intros (_ & _ & _ & H5) Hm H. destruct (H5 Hm) as (Htc & Hidx).
  destruct (Z.ltb_spec (r_istate rep) 0) as [Hneg|Hpos].
  - destruct (assoc (r_istate rep) _msgs) as [m|] eqn:Hmsg.
    + rewrite (react_failure _ _ _ _ _ Hneg Hmsg) in H.
      inversion H; subst r; clear H. by left.
    + unfold react in H. cbv zeta in H. cbn [sync istate] in H.
      destruct (Z.ltb_spec (r_istate rep) 0) as [_|]; [|lia].
      unfold bind, msg_of in H. rewrite Hmsg in H. discriminate.
  - apply react_inv in H as (st' & wp & Hbk & _ & Hrest); [|done].
    assert (itask r.2 = itask st' ∧ tindex r.2 = tindex st') as (-> & ->).
    { destruct (r_istate rep =? 3).
      - apply root_found_inv in Hrest as (i & flag & _ & _ & -> & _). done.
      - by destruct Hrest as [-> _]. }
    apply bookkeep_inv in Hbk
      as (_ & tw & Htw & _ & _ & _ & Hti & [_ Hit] & _).
    unfold crit_hit in Hit. cbn [sync itask tindex tcrit_ii] in *.
    rewrite Hit, Hti, Hm, Htc. simpl. rewrite lookup_tail, <- Hidx, Htw.
    destruct (feq (r_t rep) tw); simpl; [|by left].
    destruct (decide (Some (tindex st)
                      = Some (length (tail (t (e_args e)))))) as [Hlast|Hlast];
      [|rewrite bool_decide_eq_false_2 by done; by left].
    right. injection Hlast as Hlast.
    destruct (t (e_args e)); simpl in *; [discriminate|lia].
Qed.

(** * Further properties of the driver *)

(** ** What one iteration does to the traces *)

Section Iteration.

Variable dlsodar : list call -> call -> reply.

(** An iteration that returns: the reply it got, and what was appended to
    which list.  A failure status appends nothing and breaks; otherwise the
    point is appended when it is wanted, the output cursor moves when the
    requested time was reached, and a status 3 appends one root event and
    breaks exactly when the flag of the selected root is 1. *)
Lemma step_effect e st r w w' :
  step dlsodar e st w = (Ok r, w') ->
  ∃ rep tw,
    t (e_args e) !! tindex st = Some tw
    ∧ (∃ c, rep = dlsodar (calls w) c ∧ calls w' = calls w ++ [c])
    ∧ let ok := 0 <=? r_istate rep in
      let rec := ok && wanted (sync st rep) (r_t rep) tw in
      let moved := ok && feq (r_t rep) tw in
      tout r.2 = tout st ++ (if rec then [r_t rep] else [])
      ∧ yout r.2 = yout st ++ (if rec then [r_y rep] else [])
      ∧ tindex r.2 = (if moved then S (tindex st) else tindex st)
      ∧ istate r.2 = r_istate rep
      ∧ rwork r.2 = r_rwork rep ∧ iwork r.2 = r_iwork rep
      ∧ (itask r.2 = itask st ∨ itask r.2 = 1)
      ∧ (if rec && full_output (e_args e)
         then snapshotted (sync st rep) (info_dict r.2)
         else info_dict r.2 = info_dict st)
      ∧ (if r_istate rep =? 3
         then ∃ i flag,
                index1 (r_jroot rep) = Some i
                ∧ root_term (e_args e) !! i = Some flag
                ∧ r.1 = (if flag =? 1 then Break else Continue)
                ∧ t_root r.2 = t_root st ++ [r_t rep]
                ∧ y_root r.2 = y_root st ++ [r_y rep]
                ∧ i_root r.2 = i_root st ++ [i]
         else r.1 = (if ok then Continue else Break)
              ∧ t_root r.2 = t_root st ∧ y_root r.2 = y_root st
              ∧ i_root r.2 = i_root st).
Proof.
  intros H. unfold step in H.
  apply bind_inv_ok in H as (rep & w1 & Hreq & H).
  destruct (request_inv _ _ _ _ _ _ Hreq)
    as (Hlt & _ & c & Hcalls & Hrep & _).
  destruct (lookup_lt_is_Some_2 _ _ Hlt) as [tw Htw].
  exists rep, tw. split; [done|].
  destruct (Z.ltb_spec (r_istate rep) 0) as [Hneg|Hpos].
  - assert ((0 <=? r_istate rep) = false) as -> by (apply Z.leb_gt; lia).
    assert ((r_istate rep =? 3) = false) as -> by (apply Z.eqb_neq; lia).
    destruct (assoc (r_istate rep) _msgs) as [m|] eqn:Hm.
    + rewrite (react_failure _ _ _ _ _ Hneg Hm) in H.
      inversion H; subst r w'; clear H. cbn.
      split; [by exists c|]. rewrite !app_nil_r.
      repeat (split; [done|]). split; [by left|]. done.
    + unfold react in H. cbv zeta in H. cbn [sync istate] in H.
      destruct (Z.ltb_spec (r_istate rep) 0) as [_|]; [|lia].
      unfold bind, msg_of in H. rewrite Hm in H. discriminate.
  - assert ((0 <=? r_istate rep) = true) as -> by (apply Z.leb_le; lia).
    apply react_inv in H as (st1 & wp & Hbk & Hwp & Hrest); [|done].
    apply bookkeep_inv in Hbk
      as (_ & tw' & Htw' & Hto & Hyo & Hd & Hti & [_ Hit] & His & Htr & Hyr
          & Hir & Hrw & Hiw).
    cbn [sync tindex] in Htw'. rewrite Htw in Htw'.
    injection Htw' as <-. cbn [andb].
    cbn [sync tout yout tindex istate info_dict t_root y_root i_root itask
         rwork iwork] in *.
    assert (calls w' = calls w ++ [c]
            ∧ tout r.2 = tout st1 ∧ yout r.2 = yout st1
            ∧ tindex r.2 = tindex st1 ∧ istate r.2 = istate st1
            ∧ rwork r.2 = rwork st1 ∧ iwork r.2 = iwork st1
            ∧ itask r.2 = itask st1
            ∧ info_dict r.2 = info_dict st1
            ∧ (if r_istate rep =? 3
               then ∃ i flag,
                      index1 (r_jroot rep) = Some i
                      ∧ root_term (e_args e) !! i = Some flag
                      ∧ r.1 = (if flag =? 1 then Break else Continue)
                      ∧ t_root r.2 = t_root st1 ++ [r_t rep]
                      ∧ y_root r.2 = y_root st1 ++ [r_y rep]
                      ∧ i_root r.2 = i_root st1 ++ [i]
               else r.1 = Continue
                    ∧ t_root r.2 = t_root st1 ∧ y_root r.2 = y_root st1
                    ∧ i_root r.2 = i_root st1))
      as (Hc & -> & -> & -> & -> & -> & -> & -> & -> & Hroot).
    { destruct (r_istate rep =? 3).
      - apply root_found_inv in Hrest as (i & flag & Hi & Hflag & -> & ->).
        cbn. rewrite Hwp, Hcalls. repeat (split; [done|]).
        exists i, flag. by destruct (flag =? 1).
      - destruct Hrest as [-> ->]. by rewrite Hwp, Hcalls. }
    split; [by exists c|].
    rewrite Hto, Hyo, Hti, His, Hrw, Hiw.
    split; [destruct (wanted _ _ _); by rewrite ?app_nil_r|].
    split; [destruct (wanted _ _ _); by rewrite ?app_nil_r|].
    split; [done|]. split; [done|]. split; [done|]. split; [done|].
    split.
    { rewrite Hit.
      match goal with |- context [if ?b then 1 else _] => destruct b end;
        auto. }
    split; [done|].
    destruct (r_istate rep =? 3).
    + destruct Hroot as (i & flag & ? & ? & ? & ? & ? & ?).
      exists i, flag. by rewrite <- Htr, <- Hyr, <- Hir.
    + by rewrite <- Htr, <- Hyr, <- Hir.
Qed.

(** Two-level induction on the loop: [I] holds between iterations, [J]
    when the loop returns. *)
Lemma loop_exit_invariant (I J : locals -> Prop) e :
  (∀ st, I st -> (length (t (e_args e)) <= tindex st)%nat -> J st) ->
  (∀ st r w w',
     I st -> step dlsodar e st w = (Ok r, w') ->
     match r.1 with Continue => I r.2 | Break => J r.2 end) ->
  ∀ fuel st st' w w',
    I st -> loop dlsodar fuel e st w = (Ok st', w') -> J st'.
Proof.
  intros Hexit Hstep. induction fuel as [|fuel IH]; intros st st' w w' HI H;
    simpl in H.
  - destruct (Nat.ltb_spec (tindex st) (length (t (e_args e))));
      [discriminate|]. inversion H; subst. by apply Hexit.
  - destruct (Nat.ltb_spec (tindex st) (length (t (e_args e))));
      [|inversion H; subst; by apply Hexit].
    apply bind_inv_ok in H as (r & w1 & Hs & H).
    pose proof (Hstep _ _ _ _ HI Hs) as HI'.
    destruct r as [[|] st1]; cbn [fst snd] in *.
    + by eapply IH.
    + by inversion H; subst.
Qed.

(** A property that every returning iteration keeps holds when the loop
    returns. *)
Lemma loop_invariant (I : locals -> Prop) e :
  (∀ st r w w',
     I st -> step dlsodar e st w = (Ok r, w') -> I r.2) ->
  ∀ fuel st st' w w',
    I st -> loop dlsodar fuel e st w = (Ok st', w') -> I st'.
Proof.
  intros Hstep. induction fuel as [|fuel IH]; intros st st' w w' HI H;
    simpl in H.
  - destruct (_ <? _)%nat; [discriminate|]. by inversion H; subst.
  - destruct (_ <? _)%nat; [|by inversion H; subst].
    apply bind_inv_ok in H as (r & w1 & Hs & H).
    pose proof (Hstep _ _ _ _ HI Hs) as HI'.
    destruct r as [[|] st1]; cbn [fst snd] in *.
    + by eapply IH.
    + by inversion H; subst.
Qed.

(** A call that returns: the set-up, the loop, the assembled result. *)
Lemma odeintr_inv fuel a r w w' :
  odeintr dlsodar fuel a w = (Ok r, w') ->
  ∃ e st st',
    setup a w = (Ok (e, st), w)
    ∧ loop dlsodar fuel e st w = (Ok st', w')
    ∧ r = outputs e st'.
Proof.
  unfold odeintr. intros H.
  apply bind_inv_ok in H as ([e st] & w1 & Hsetup & H).
  pose proof (setup_inv _ _ _ _ _ Hsetup) as (-> & _).
  apply bind_inv_ok in H as (st' & w2 & Hloop & H).
  inversion H; subst. by exists e, st, st'.
Qed.

End Iteration.

Lemma items_outputs e st o :
  o ∈ items (outputs e st) ->
  o = Trajectory (yout st) ∨ o = TimeTrace (tout st)
  ∨ o = RootTimes (t_root st) ∨ o = RootStates (y_root st)
  ∨ o = RootIndices (i_root st)
  ∨ (o = InfoDict (info_dict st) ∧ full_output (e_args e) = true).
Proof.
  unfold outputs. cbv zeta.
  destruct (int_pts (e_args e)), (0 <? ng e)%nat, (full_output (e_args e));
    simpl; intros H;
    repeat (apply elem_of_cons in H as [->|H]; [tauto|]);
    by apply elem_of_nil in H.
Qed.

(** ** The set-up *)

Lemma setitem_ok {A} (l : list A) i x w :
  (i < length l)%nat -> setitem l i x w = (Ok (<[i := x]> l), w).
Proof. intros H. unfold setitem. by rewrite bool_decide_eq_true_2. Qed.

Lemma setitem_inv_lt {A} (l : list A) i x l' w w' :
  setitem l i x w = (Ok l', w') -> (i < length l)%nat.
Proof. unfold setitem. case_bool_decide; [done|discriminate]. Qed.

Lemma zeros_ok {A} (zero : A) n w :
  0 <= n -> zeros zero n w = (Ok (replicate (Z.to_nat n) zero), w).
Proof.
  intros H. unfold zeros. destruct (Z.ltb_spec n 0); [lia|done].
Qed.

Lemma config_passes_spec a :
  config_passes a = true <->
  bad_tol (rtol a) (length (y0 a)) = false
  ∧ bad_tol (atol a) (length (y0 a)) = false
  ∧ (int_pts a = true -> truthy (tcrit a) = false)
  ∧ 7 <= lrw_of (length (y0 a)) (length (root_term a)) a.
Proof.
  unfold config_passes. rewrite !andb_true_iff, !negb_true_iff, Z.leb_le.
  rewrite andb_false_iff.
  destruct (int_pts a), (truthy (tcrit a)); intuition (auto; discriminate).
Qed.

(** The work arrays and the first loop state that the set-up builds when the
    configuration passes; only [t[0]] is still to be read. *)
Lemma setup_run a w :
  config_passes a = true ->
  ∃ rw iw mode,
    length rw = Z.to_nat (lrw_of (length (y0 a)) (length (root_term a)) a)
    ∧ length iw = (20 + length (y0 a))%nat
    ∧ rw = <[6%nat := hmin a]> (<[5%nat := hmax a]> (<[4%nat := h0 a]>
             (replicate (length rw) 0%float)))
    ∧ iw = <[8%nat := mxords a]> (<[7%nat := mxordn a]>
             (<[6%nat := mxhnil a]> (<[5%nat := mxstep a]>
             (<[4%nat := ixpr a]> (<[1%nat := mu a]> (<[0%nat := ml a]>
             (replicate (length iw) 0)))))))
    ∧ task_mode a w = (Ok mode, w)
    ∧ setup a w
      = (t0 <- getitem (t a) 0 ;;
         ret ({| e_args := a; usefunc := UseFunc (func a) (args a);
                 useg := match root_func a with
                         | Some g => if (0 <? length (root_term a))%nat
                                     then UseG g (args a) else IdentityG
                         | None => IdentityG
                         end;
                 usejac := match Dfun a with
                           | Some j => UseJac j (args a)
                           | None => IdentityJ
                           end;
                 neq := length (y0 a); ng := length (root_term a);
                 itol := itol_of (bool_decide (is_Some (tol_len (rtol a))))
                                 (bool_decide (is_Some (tol_len (atol a))));
                 jt := jt_of (bool_decide (is_Some (Dfun a)))
                             ((0 <? ml a) || (0 <? mu a));
                 tcrit' := snd mode; t0 := t0 |},
              {| itask := fst mode; istate := 1; tindex := 1; tcrit_ii := 0;
                 tout := [t0]; yout := [y0 a];
                 t_root := []; y_root := []; i_root := [];
                 info_dict := info_dict0; rwork := rw; iwork := iw |})) w.
Proof.
  intros Hcfg. apply config_passes_spec in Hcfg as (Hr & Ha & Hmode & Hlrw).
  set (lrw := lrw_of (length (y0 a)) (length (root_term a)) a) in *.
  assert (∃ mode, task_mode a w = (Ok mode, w)) as [mode Hm].
  { unfold task_mode. destruct (int_pts a); [|by eexists].
    rewrite (Hmode eq_refl). by eexists. }
  eexists _, _, mode.
  split; [|split; [|split; [|split; [|split; [exact Hm|]]]]]; cycle 4.
  - unfold setup. cbv zeta.
    erewrite bind_ok; [|by rewrite check_tol_eq, Hr].
    erewrite bind_ok; [|by rewrite check_tol_eq, Ha].
    erewrite bind_ok; [|exact Hm].
    erewrite bind_ok; [|apply zeros_ok; lia].
    erewrite bind_ok; [|apply zeros_ok; lia].
    do 3 (erewrite bind_ok;
          [|apply setitem_ok; rewrite ?length_insert, length_replicate; lia]).
    do 7 (erewrite bind_ok;
          [|apply setitem_ok; rewrite ?length_insert, length_replicate; lia]).
    reflexivity.
  - rewrite !length_insert, length_replicate. done.
  - rewrite !length_insert, length_replicate. lia.
  - rewrite !length_insert, length_replicate. done.
  - rewrite !length_insert, length_replicate.
    by replace (Z.to_nat (20 + Z.of_nat (length (y0 a))))
      with (20 + length (y0 a))%nat by lia.
Qed.

(** A set-up that returns had a configuration that passes. *)
Lemma setup_ok_config a e st w w' :
  setup a w = (Ok (e, st), w') -> config_passes a = true.
Proof.
  intros H. apply config_passes_spec. unfold setup in H. cbv zeta in H.
  inv_bind H. rewrite check_tol_eq in Hstep.
  destruct (bad_tol (rtol a) _); [discriminate|].
  injection Hstep as _ <-.
  inv_bind H. rewrite check_tol_eq in Hstep.
  destruct (bad_tol (atol a) _); [discriminate|].
  injection Hstep as _ <-.
  inv_bind H. apply task_mode_inv in Hstep as (-> & _ & Hmode).
  inv_bind H. apply zeros_inv in Hstep as (-> & ->).
  inv_bind H. apply zeros_inv in Hstep as (-> & ->).
  inv_bind H. pose proof (setitem_inv_lt _ _ _ _ _ _ Hstep) as H4.
  apply setitem_inv in Hstep as (-> & ->).
  inv_bind H. pose proof (setitem_inv_lt _ _ _ _ _ _ Hstep) as H5.
  apply setitem_inv in Hstep as (-> & ->).
  inv_bind H. pose proof (setitem_inv_lt _ _ _ _ _ _ Hstep) as H6.
  rewrite !length_insert, length_replicate in H6.
  split; [done|]. split; [done|]. split; [by intros Hi; apply Hmode|].
  lia.
Qed.

(** The environment and the state that a returning set-up returns. *)
Lemma setup_ok_run a e st w w' :
  setup a w = (Ok (e, st), w') ->
  ∃ rw iw tfirst,
    length rw = Z.to_nat (lrw_of (length (y0 a)) (length (root_term a)) a)
    ∧ length iw = (20 + length (y0 a))%nat
    ∧ rw = <[6%nat := hmin a]> (<[5%nat := hmax a]> (<[4%nat := h0 a]>
             (replicate (length rw) 0%float)))
    ∧ iw = <[8%nat := mxords a]> (<[7%nat := mxordn a]>
             (<[6%nat := mxhnil a]> (<[5%nat := mxstep a]>
             (<[4%nat := ixpr a]> (<[1%nat := mu a]> (<[0%nat := ml a]>
             (replicate (length iw) 0)))))))
    ∧ head (t a) = Some tfirst
    ∧ rwork st = rw ∧ iwork st = iw
    ∧ usefunc e = UseFunc (func a) (args a)
    ∧ usejac e = match Dfun a with
                 | Some j => UseJac j (args a)
                 | None => IdentityJ
                 end
    ∧ itol e = itol_of (bool_decide (is_Some (tol_len (rtol a))))
                       (bool_decide (is_Some (tol_len (atol a))))
    ∧ jt e = jt_of (bool_decide (is_Some (Dfun a)))
                   ((0 <? ml a) || (0 <? mu a))
    ∧ t0 e = tfirst ∧ e_args e = a ∧ ng e = length (root_term a).
Proof.
  intros H. pose proof (setup_ok_config _ _ _ _ _ H) as Hcfg.
  destruct (setup_run a w Hcfg)
    as (rw & iw & mode & Hlr & Hli & Hrw & Hiw & _ & Hs).
  rewrite Hs in H. apply bind_inv_ok in H as (tfirst & w1 & Ht0 & H).
  apply getitem_inv in Ht0 as [Ht0 ->]. inversion H; subst e st; clear H.
  exists rw, iw, tfirst. cbn. repeat (split; [done|]).
  split; [by destruct (t a)|]. done.
Qed.

(** X1: the set-up returns exactly when every tolerance sequence has the
    length of [y0], [tcrit] is not combined with [int_pts], the real work
    array has at least 7 slots, and [t] is not empty. *)
Theorem setup_returns_iff (a : odeintr_args) (w : world) :
  (∃ e st w', setup a w = (Ok (e, st), w')) <-> setup_passes a = true.
Proof.
  unfold setup_passes. rewrite andb_true_iff, Nat.ltb_lt. split.
  - intros (e & st & w' & H). split; [by eapply setup_ok_config|].
    apply setup_inv in H as (_ & -> & _ & _ & _ & _ & _ & _ & _ & Ht0 & _).
    apply lookup_lt_Some in Ht0. lia.
  - intros [Hcfg Ht].
    destruct (setup_run a w Hcfg) as (rw & iw & mode & _ & _ & _ & _ & _ & ->).
    destruct (lookup_lt_is_Some_2 (t a) 0 Ht) as [t0 Ht0].
    eexists _, _, _. erewrite bind_ok; [|by apply getitem_ok]. reflexivity.
Qed.

(** X2: with an empty [t], a configuration that passes every other check
    ends in [IndexError] at [t[0]]; nothing has been printed and the solver
    has not been called. *)
Theorem empty_times_raise_IndexError
    (dlsodar : list call -> call -> reply) (fuel : nat) (a : odeintr_args)
    (w : world) :
  config_passes a = true ->
  t a = [] ->
  odeintr dlsodar fuel a w = (Raise IndexError, w).
Proof.
  intros Hcfg Ht. unfold odeintr. apply bind_raise.
  destruct (setup_run a w Hcfg) as (rw & iw & mode & _ & _ & _ & _ & _ & ->).
  apply bind_raise. unfold getitem. by rewrite Ht.
Qed.

Lemma empty_times_raise_IndexError_witness :
  odeintr exact_solver 3
    (sample_args [] true true None [1] (Some "g") false) world0
  = (Raise IndexError, world0).
Proof.
  apply empty_times_raise_IndexError; reflexivity.
Defined.

(** X3: a single requested time is only the initial time: the call returns
    with the trajectory [[y0]], whatever the fuel, and the solver is never
    called. *)
Theorem single_time_returns_initial_row
    (dlsodar : list call -> call -> reply) (fuel : nat) (a : odeintr_args)
    (w : world) (t0 : float) :
  config_passes a = true ->
  t a = [t0] ->
  ∃ r, odeintr dlsodar fuel a w = (Ok r, w)
       ∧ Trajectory [y0 a] ∈ items r
       ∧ ∀ l, TimeTrace l ∈ items r -> l = [t0].
Proof.
  intros Hcfg Ht. unfold odeintr.
  destruct (setup_run a w Hcfg) as (rw & iw & mode & _ & _ & _ & _ & _ & Hs).
  eexists. split.
  - erewrite bind_ok; cycle 1.
    { rewrite Hs. erewrite bind_ok; [|apply getitem_ok; by rewrite Ht].
      reflexivity. }
    cbn [fst snd]. erewrite bind_ok; [reflexivity|].
    destruct fuel; simpl; by rewrite Ht.
  - split.
    + unfold outputs. cbv zeta. cbn [e_args ng yout fst snd].
      destruct (int_pts a), (0 <? length (root_term a))%nat, (full_output a);
        cbn; apply list_elem_of_here.
    + intros l Hl. apply items_outputs in Hl. cbn in Hl.
      destruct Hl as [Hl|[Hl|[Hl|[Hl|[Hl|[Hl _]]]]]]; try discriminate.
      by injection Hl as ->.
Qed.

Lemma single_time_returns_initial_row_witness :
  ∃ r, odeintr exact_solver 0
         (sample_args [7%float] false false None [0] (Some "g") false) world0
       = (Ok r, world0)
       ∧ Trajectory [[1%float]] ∈ items r
       ∧ ∀ l, TimeTrace l ∈ items r -> l = [7%float].
Proof.
  apply (single_time_returns_initial_row exact_solver 0
           (sample_args [7%float] false false None [0] (Some "g") false)
           world0 7%float); reflexivity.
Defined.

Lemma lrw_of_room n g a : -4 <= mxords a -> 22 <= lrw_of n g a.
Proof.
  intros H. unfold lrw_of, pymax. cbv zeta.
  pose proof (Z.mul_nonneg_nonneg (Z.of_nat n) (mxords a + 4)
                ltac:(lia) ltac:(lia)).
  pose proof (Z.pow_nonneg (Z.of_nat n) 2 ltac:(lia)).
  set (lmat := if (Z.of_nat n ^ 2 + 2 <? _) then _ else _).
  assert (2 <= lmat)
    by (subst lmat;
        destruct (Z.ltb_spec (Z.of_nat n ^ 2 + 2)
                    ((2 * ml a + mu a + 1) * Z.of_nat n + 2)); lia).
  clearbody lmat.
  match goal with |- context [if ?b <? ?c then _ else _] =>
    destruct (Z.ltb_spec b c) end; lia.
Qed.



(** X5: with a stiff order ceiling of at least -4 (the default is 5) the
    real work array has at least 22 slots whatever the other options are,
    so the set-up cannot fail on the work arrays, and both arrays reach
    every slot the diagnostics read (up to [rwork[14]] and [iwork[18]]). *)
Theorem stiff_order_ceiling_makes_room
    (a : odeintr_args) (e : env) (st : locals) (w w' : world) :
  -4 <= mxords a ->
  setup a w = (Ok (e, st), w') ->
  (22 <= length (rwork st))%nat ∧ (20 <= length (iwork st))%nat
  ∧ ∀ rep, r_rwork rep = rwork st -> r_iwork rep = iwork st ->
           work_ready rep = true.
Proof.
  intros Hord H.
  pose proof (lrw_of_room (length (y0 a)) (length (root_term a)) a Hord).
  apply setup_ok_run in H
    as (rw & iw & t0 & Hlr & Hli & _ & _ & _ & -> & -> & _).
  assert (22 <= length rw)%nat by lia. assert (20 <= length iw)%nat by lia.
  split; [done|]. split; [done|]. intros rep Hr Hi. unfold work_ready.
  rewrite Hr, Hi. apply andb_true_iff. split; apply Nat.ltb_lt; lia.
Qed.

Lemma stiff_order_ceiling_makes_room_witness :
  let a := sample_args [0; 1]%float true false None [] None false in
  match setup a world0 with
  | (Ok (e, st), _) =>
      (22 <= length (rwork st))%nat ∧ (20 <= length (iwork st))%nat
  | _ => False
  end.
Proof.
  intros a.
  destruct (setup a world0) as [[[e st]| |] w'] eqn:H;
    [|vm_compute in H; discriminate..].
  destruct (stiff_order_ceiling_makes_room a e st world0 w') as (Hr & Hi & _);
    [apply Z.leb_le; reflexivity|exact H|].
  split; [exact Hr|exact Hi].
Defined.

(** ** The solver calls *)

Section Requests.

Variable dlsodar : list call -> call -> reply.

(** The one call of a request that returns, argument by argument. *)
Lemma request_call e st rep w w1 :
  request dlsodar e st w = (Ok rep, w1) ->
  ∃ c tw,
    calls w1 = calls w ++ [c] ∧ console w1 = console w
    ∧ rep = dlsodar (calls w) c
    ∧ t (e_args e) !! tindex st = Some tw
    ∧ c_itask c = itask st ∧ c_istate c = istate st
    ∧ c_iwork c = iwork st
    ∧ match pending_critical e st with
      | Some crit =>
          c_tout c = pymin crit tw
          ∧ c_rwork c = <[0%nat := crit]> (rwork st)
          ∧ (0 < length (rwork st))%nat
      | None => c_tout c = tw ∧ c_rwork c = rwork st
      end.
Proof.
  unfold request, pending_critical. cbv zeta. intros H.
  apply bind_inv_ok in H as (tw & w2 & Htw & H).
  apply getitem_inv in Htw as [Htw ->].
  apply bind_inv_ok in H as (narrow & w2 & Hn & H).
  apply bind_inv_ok in H as (p & w3 & Hp & H).
  unfold call_solver in H. inversion H; subst; clear H.
  eexists _, tw. cbn [c_itask c_istate c_iwork c_tout c_rwork calls console].
  destruct ((itask st =? 4) || (itask st =? 5)).
  - apply bind_inv_ok in Hn as (n & w4 & Hlen & Hn).
    unfold len_tcrit in Hlen.
    destruct (tcrit' e) as [tc|] eqn:Htc; [|discriminate].
    inversion Hlen; subst; clear Hlen. inversion Hn; subst; clear Hn.
    simpl. destruct (Nat.ltb_spec (tcrit_ii st) (length tc)) as [Hlt|Hge].
    + apply bind_inv_ok in Hp as (c & w5 & Hc & Hp).
      unfold tcrit_at in Hc. rewrite Htc in Hc.
      apply getitem_inv in Hc as [Hc ->].
      apply bind_inv_ok in Hp as (rw & w6 & Hrw & Hp).
      pose proof (setitem_inv_lt _ _ _ _ _ _ Hrw) as Hlen0.
      apply setitem_inv in Hrw as (-> & ->).
      apply bind_inv_ok in Hp as (c' & w7 & Hc' & Hp).
      unfold tcrit_at in Hc'. rewrite Htc in Hc'.
      apply getitem_inv in Hc' as [Hc' ->].
      rewrite Hc in Hc'. injection Hc' as <-.
      inversion Hp; subst; clear Hp. rewrite Hc. done.
    + inversion Hp; subst; clear Hp.
      rewrite (lookup_ge_None_2 tc _ Hge). done.
  - inversion Hn; subst; clear Hn. inversion Hp; subst; clear Hp. done.
Qed.

Lemma asks_request_fixed e st :
  asks (λ c, c_f c = usefunc e ∧ c_y0 c = y0 (e_args e) ∧ c_t0 c = t0 e
             ∧ c_rtol c = rtol (e_args e) ∧ c_atol c = atol (e_args e)
             ∧ c_itol c = itol e ∧ c_jt c = jt e ∧ c_jac c = usejac e
             ∧ c_ng c = ng e)
       (request dlsodar e st).
Proof.
  unfold request. cbv zeta.
  apply asks_bind; [apply asks_getitem|intros tw].
  apply asks_bind; [unfold len_tcrit; asks|intros narrow].
  apply asks_bind.
  { destruct narrow; [|asks]. unfold tcrit_at.
    destruct (tcrit' e); [|asks].
    apply asks_bind; [apply asks_getitem|intros].
    apply asks_bind; [apply asks_setitem|intros].
    apply asks_bind; [apply asks_getitem|intros]. asks. }
  intros p w. eexists [_]. split; [reflexivity|].
  apply Forall_singleton. done.
Qed.

Lemma asks_loop_of P fuel e :
  (∀ st, asks P (request dlsodar e st)) ->
  ∀ st, asks P (loop dlsodar fuel e st).
Proof.
  intros Hreq. induction fuel as [|fuel IH]; intros st; simpl.
  - asks.
  - destruct (_ <? _)%nat; [|asks].
    apply asks_bind.
    + unfold step. apply asks_bind; [apply Hreq|intros rep].
      apply asks_react.
    + intros [[|] st']; simpl; [apply IH|asks].
Qed.

End Requests.

(** X6: whatever a call to [odeintr] does, every solver call it makes
    passes the caller's [y0] and [t[0]] (never the state or time reached so
    far), the caller's [rtol] and [atol], the wrapped [func] and [Dfun], the
    tolerance code of lines 186-189, the Jacobian code of lines 212-215, and
    [ng = len(root_term)]. *)
Theorem calls_carry_fixed_arguments
    (dlsodar : list call -> call -> reply) (fuel : nat) (a : odeintr_args)
    (w : world) :
  ∃ cs, calls (odeintr dlsodar fuel a w).2 = calls w ++ cs
        ∧ Forall (fixed_arguments a) cs.
Proof.
  unfold odeintr. unfold bind at 1.
  destruct (asks_setup (λ _, False) a w) as (cs0 & Hcs0 & HF).
  assert (cs0 = []) as -> by (by destruct cs0; [|inversion HF]).
  rewrite app_nil_r in Hcs0.
  destruct (setup a w) as [[[e st]| |] w1] eqn:Hsetup;
    cbn [snd] in *; try (exists []; by rewrite app_nil_r).
  pose proof (setup_inv _ _ _ _ _ Hsetup) as (-> & _).
  apply setup_ok_run in Hsetup
    as (rw & iw & tfirst & _ & _ & _ & _ & Hhd & _ & _ & Hf & Hj & Hitol & Hjt
        & Ht0 & Hargs & Hng).
  cbn [fst snd].
  destruct (asks_loop_of dlsodar _ fuel e (asks_request_fixed dlsodar e) st w)
    as (cs & Hcs & HP).
  exists cs. split.
  - unfold bind. destruct (loop dlsodar fuel e st w) as [[st'| |] w2]; done.
  - eapply Forall_impl; [exact HP|]. intros c (? & ? & ? & ? & ? & ? & ? & ? & ?).
    unfold fixed_arguments.
    rewrite <- Hf, <- Hj, <- Hitol, <- Hjt, <- Hng, Hhd, <- Ht0.
    rewrite Hargs in *. by repeat split; try congruence.
Qed.

(** X7: a request that returns asked the solver once, in the present task
    mode and with the status of the previous call.  In a critical mode with
    the cursor inside [tcrit], the target is [min(tcrit[tcrit_ii], t[tindex])]
    and [rwork[0]] carries that critical time; otherwise the target is
    [t[tindex]] and [rwork] is passed on as it is. *)
Theorem request_target
    (dlsodar : list call -> call -> reply) (e : env) (st : locals)
    (rep : reply) (w w1 : world) :
  request dlsodar e st w = (Ok rep, w1) ->
  ∃ c tw,
    calls w1 = calls w ++ [c] ∧ rep = dlsodar (calls w) c
    ∧ t (e_args e) !! tindex st = Some tw
    ∧ c_itask c = itask st ∧ c_istate c = istate st
    ∧ c_iwork c = iwork st
    ∧ match pending_critical e st with
      | Some crit =>
          c_tout c = pymin crit tw
          ∧ c_rwork c = <[0%nat := crit]> (rwork st)
      | None => c_tout c = tw ∧ c_rwork c = rwork st
      end.
Proof.
  intros H. apply request_call in H
    as (c & tw & Hc & _ & Hrep & Htw & Hit & His & Hiw & Hp).
  exists c, tw. repeat (split; [done|]).
  destruct (pending_critical e st); [|done]. by destruct Hp as (? & ? & _).
Qed.

Lemma request_target_witness :
  let e := sample_env
             (sample_args [0; 4; 10]%float false false
                (Some [3; 9]%float) [] None false) (Some [3; 9]%float) in
  match request exact_solver e (sample_locals 4) world0 with
  | (Ok rep, w1) =>
      ∃ c, calls w1 = [c] ∧ c_tout c = 3%float
           ∧ c_rwork c = <[0%nat := 3%float]> (replicate 36 0%float)
  | _ => False
  end.
Proof.
  intros e.
  destruct (request exact_solver e (sample_locals 4) world0)
    as [[rep| |] w1] eqn:H; [|vm_compute in H; discriminate..].
  destruct (request_target exact_solver e (sample_locals 4) rep world0 w1 H)
    as (c & tw & Hc & _ & Htw & _ & _ & _ & Hp).
  injection Htw as <-. exists c. split; [exact Hc|exact Hp].
Defined.

(** X8: in a call with [int_pts] the critical times are the requested times
    themselves, so every request targets exactly [t[tindex]] and hands that
    same time to the solver as the critical time in [rwork[0]]: the solver
    may not step past the next requested time. *)
Theorem int_pts_requests_next_time
    (dlsodar : list call -> call -> reply) (e : env) (st : locals)
    (rep : reply) (w w1 : world) :
  on_track e st ->
  itask st = 5 ->
  request dlsodar e st w = (Ok rep, w1) ->
  ∃ c tw,
    calls w1 = calls w ++ [c]
    ∧ t (e_args e) !! tindex st = Some tw
    ∧ c_itask c = 5 ∧ c_tout c = tw ∧ c_rwork c !! 0%nat = Some tw.
Proof.
  intros (_ & _ & _ & H5) Hm H. destruct (H5 Hm) as [Htc Hidx].
  apply request_call in H
    as (c & tw & Hc & _ & _ & Htw & Hit & _ & _ & Hp).
  exists c, tw. split; [done|]. split; [done|]. split; [by rewrite Hit|].
  unfold pending_critical in Hp. rewrite Hm, Htc in Hp. simpl in Hp.
  rewrite lookup_tail, <- Hidx, Htw in Hp. destruct Hp as (-> & -> & Hlen).
  split; [unfold pymin; by destruct (PrimFloat.ltb tw tw)|].
  by apply list_lookup_insert_eq.
Qed.

Lemma int_pts_requests_next_time_witness :
  let e := sample_env
             (sample_args [0; 4; 10]%float false false None [] None true)
             (Some [4; 10]%float) in
  match request exact_solver e (sample_locals 5) world0 with
  | (Ok rep, w1) =>
      ∃ c, calls w1 = [c] ∧ c_itask c = 5 ∧ c_tout c = 4%float
           ∧ c_rwork c !! 0%nat = Some 4%float
  | _ => False
  end.
Proof.
  intros e.
  destruct (request exact_solver e (sample_locals 5) world0)
    as [[rep| |] w1] eqn:H; [|vm_compute in H; discriminate..].
  destruct (int_pts_requests_next_time exact_solver e (sample_locals 5) rep
              world0 w1) as (c & tw & Hc & Htw & Hit & Htout & Hrw).
  - split; [reflexivity|]. split; [auto|].
    split; [discriminate|]. intros _. split; reflexivity.
  - reflexivity.
  - exact H.
  - injection Htw as <-. exists c. split; [exact Hc|]. split; [exact Hit|].
    split; [exact Htout|exact Hrw].
Defined.

(** ** Invariants of the traces *)

Lemma wanted_root st rep tw :
  (r_istate rep =? 3) = true ->
  (0 <=? r_istate rep) && wanted (sync st rep) (r_t rep) tw = true.
Proof.
  intros H. unfold wanted. cbn [sync istate]. rewrite H, orb_true_r.
  apply Z.eqb_eq in H. rewrite H. done.
Qed.

Lemma head_snoc {A} (l k : list A) x :
  head l = Some x -> head (l ++ k) = Some x.
Proof. by destruct l. Qed.

(** X9: the first row of the returned trajectory is [y0], and the first
    entry of the returned time trace is [t[0]], whatever the solver did. *)
Theorem trace_starts_at_initial_point
    (dlsodar : list call -> call -> reply) (fuel : nat) (a : odeintr_args)
    (r : pyresult) (w w' : world) :
  odeintr dlsodar fuel a w = (Ok r, w') ->
  (∀ ys, Trajectory ys ∈ items r -> head ys = Some (y0 a))
  ∧ (∀ ts, TimeTrace ts ∈ items r -> head ts = head (t a)).
Proof.
  intros H. apply odeintr_inv in H as (e & st & st' & Hsetup & Hloop & ->).
  apply setup_inv in Hsetup
    as (_ & Hargs & _ & _ & _ & _ & _ & _ & _ & Ht0 & Hto & Hyo & _).
  assert (head (yout st') = Some (y0 a) ∧ head (tout st') = Some (t0 e))
    as [Hy Ht].
  { apply (loop_invariant dlsodar
             (λ s, head (yout s) = Some (y0 a) ∧ head (tout s) = Some (t0 e))
             e) in Hloop; [done| |by rewrite Hto, Hyo].
    intros s r0 w0 w0' [Hy Ht] Hstep.
    apply step_effect in Hstep as (rep & tw & _ & _ & Hto' & Hyo' & _).
    rewrite Hto', Hyo'. split; by apply head_snoc. }
  rewrite Hargs in Ht0. rewrite head_lookup, Ht0.
  split; intros l Hl; apply items_outputs in Hl;
    destruct Hl as [Hl|[Hl|[Hl|[Hl|[Hl|[Hl _]]]]]]; try discriminate;
    by injection Hl as ->.
Qed.

Lemma trace_starts_at_initial_point_witness :
  let a := sample_args [0; 4; 10]%float false false None [0] (Some "g")
             false in
  match (odeintr (scripted [landing 3 [1]]) 5 a world0).1 with
  | Ok r => ∀ ts, TimeTrace ts ∈ items r -> head ts = Some 0%float
  | _ => False
  end.
Proof.
  intros a.
  destruct (odeintr (scripted [landing 3 [1]]) 5 a world0) as [[r| |] w']
    eqn:H; [|vm_compute in H; discriminate..].
  exact (proj2 (trace_starts_at_initial_point _ _ _ _ _ _ H)).
Defined.

(** X10: the returned lists are aligned: [tout] has one time per row of the
    trajectory; [t_root], [y_root] and [i_root] have one entry per root
    event; and there are fewer root events than rows, the initial row being
    no event. *)
Theorem traces_aligned
    (dlsodar : list call -> call -> reply) (fuel : nat) (a : odeintr_args)
    (r : pyresult) (w w' : world) :
  odeintr dlsodar fuel a w = (Ok r, w') ->
  (∀ ys ts, Trajectory ys ∈ items r -> TimeTrace ts ∈ items r ->
            length ts = length ys)
  ∧ (∀ rt ry ri, RootTimes rt ∈ items r -> RootStates ry ∈ items r ->
                 RootIndices ri ∈ items r ->
                 length rt = length ri ∧ length ry = length ri)
  ∧ (∀ ys ri, Trajectory ys ∈ items r -> RootIndices ri ∈ items r ->
              (length ri < length ys)%nat).
Proof.
  intros H. apply odeintr_inv in H as (e & st & st' & Hsetup & Hloop & ->).
  apply setup_inv in Hsetup
    as (_ & _ & _ & _ & _ & _ & _ & _ & _ & _ & Hto & Hyo & Htr & Hyr & Hir & _).
  assert (length (tout st') = length (yout st')
          ∧ length (t_root st') = length (i_root st')
          ∧ length (y_root st') = length (i_root st')
          ∧ (length (i_root st') < length (yout st'))%nat)
    as (Hlt & Hlrt & Hlry & Hlri).
  { apply (loop_invariant dlsodar
             (λ s, length (tout s) = length (yout s)
                   ∧ length (t_root s) = length (i_root s)
                   ∧ length (y_root s) = length (i_root s)
                   ∧ (length (i_root s) < length (yout s))%nat) e) in Hloop;
      [done| |by rewrite Hto, Hyo, Htr, Hyr, Hir; simpl; lia].
    intros s r0 w0 w0' (H1 & H2 & H3 & H4) Hstep.
    apply step_effect in Hstep
      as (rep & tw & _ & _ & Hto' & Hyo' & _ & _ & _ & _ & _ & _ & Hroot).
    rewrite Hto', Hyo'. clear Hto' Hyo'.
    destruct (r_istate rep =? 3) eqn:H3'.
    - destruct Hroot as (i & flag & _ & _ & _ & -> & -> & ->).
      rewrite (wanted_root _ _ _ H3'). rewrite !length_app. simpl. lia.
    - destruct Hroot as (_ & -> & -> & ->).
      destruct (_ && _); rewrite !length_app; simpl; lia. }
  split; [|split].
  - intros ys ts Hy Ht. apply items_outputs in Hy, Ht.
    destruct Hy as [Hy|[Hy|[Hy|[Hy|[Hy|[Hy _]]]]]]; try discriminate.
    destruct Ht as [Ht|[Ht|[Ht|[Ht|[Ht|[Ht _]]]]]]; try discriminate.
    injection Hy as ->. by injection Ht as ->.
  - intros rt ry ri Ht Hy Hi. apply items_outputs in Ht, Hy, Hi.
    destruct Ht as [Ht|[Ht|[Ht|[Ht|[Ht|[Ht _]]]]]]; try discriminate.
    destruct Hy as [Hy|[Hy|[Hy|[Hy|[Hy|[Hy _]]]]]]; try discriminate.
    destruct Hi as [Hi|[Hi|[Hi|[Hi|[Hi|[Hi _]]]]]]; try discriminate.
    injection Ht as ->. injection Hy as ->. by injection Hi as ->.
  - intros ys ri Hy Hi. apply items_outputs in Hy, Hi.
    destruct Hy as [Hy|[Hy|[Hy|[Hy|[Hy|[Hy _]]]]]]; try discriminate.
    destruct Hi as [Hi|[Hi|[Hi|[Hi|[Hi|[Hi _]]]]]]; try discriminate.
    injection Hy as ->. by injection Hi as ->.
Qed.

Lemma traces_aligned_witness :
  let a := sample_args [0; 4; 10]%float false false None [0] (Some "g")
             false in
  match (odeintr (scripted [landing 3 [1]]) 5 a world0).1 with
  | Ok r =>
      ∀ ys ts, Trajectory ys ∈ items r -> TimeTrace ts ∈ items r ->
               length ts = length ys
  | _ => False
  end.
Proof.
  intros a.
  destruct (odeintr (scripted [landing 3 [1]]) 5 a world0) as [[r| |] w']
    eqn:H; [|vm_compute in H; discriminate..].
  exact (proj1 (traces_aligned _ _ _ _ _ _ H)).
Defined.

Lemma info_dict0_lookup key idx :
  (key, idx) ∈ _rwork_vars ++ _iwork_vars ->
  info_dict0 !! key = Some (VList []).
Proof.
  intros Hin. unfold _rwork_vars, _iwork_vars in Hin. simpl in Hin.
  repeat (apply elem_of_cons in Hin as [[= -> ->]|Hin];
          [by vm_compute|]).
  by apply elem_of_nil in Hin.
Qed.

(** X11: with [full_output], every diagnostic list of the returned
    dictionary has one entry per row of the trajectory after the first. *)
Theorem diagnostics_aligned
    (dlsodar : list call -> call -> reply) (fuel : nat) (a : odeintr_args)
    (r : pyresult) (w w' : world) :
  full_output a = true ->
  odeintr dlsodar fuel a w = (Ok r, w') ->
  ∀ d ys key idx,
    InfoDict d ∈ items r -> Trajectory ys ∈ items r ->
    (key, idx) ∈ _rwork_vars ++ _iwork_vars ->
    ∃ l, d !! key = Some (VList l) ∧ S (length l) = length ys.
Proof.
  intros Hfull H.
  apply odeintr_inv in H as (e & st & st' & Hsetup & Hloop & ->).
  apply setup_inv in Hsetup
    as (_ & Hargs & _ & _ & _ & _ & _ & _ & _ & _ & _ & Hyo & _ & _ & _ & Hd).
  assert (∀ key idx, (key, idx) ∈ _rwork_vars ++ _iwork_vars ->
            ∃ l, info_dict st' !! key = Some (VList l)
                 ∧ S (length l) = length (yout st')) as Hinv.
  { refine (loop_invariant dlsodar
             (λ s, ∀ key idx, (key, idx) ∈ _rwork_vars ++ _iwork_vars ->
                     ∃ l, info_dict s !! key = Some (VList l)
                          ∧ S (length l) = length (yout s)) e
             _ fuel st st' w w' _ Hloop).
    - intros s r0 w0 w0' HI Hstep.
      apply step_effect in Hstep
        as (rep & tw & _ & _ & _ & Hyo' & _ & _ & _ & _ & _ & Hd' & _).
      rewrite Hargs, Hfull, andb_true_r in Hd'.
      intros key idx Hin. destruct (HI key idx Hin) as (l & Hl & Hlen).
      rewrite Hyo'. destruct (_ && _).
      + destruct Hd' as (Hr & Hi & _). cbn [sync info_dict] in Hr, Hi.
        apply elem_of_app in Hin as [Hin|Hin].
        * destruct (Hr key idx Hin) as (l0 & x & Hl0 & _ & ->).
          rewrite Hl in Hl0. injection Hl0 as <-. eexists. split; [done|].
          rewrite !length_app. simpl. lia.
        * destruct (Hi key idx Hin) as (l0 & x & Hl0 & _ & ->).
          rewrite Hl in Hl0. injection Hl0 as <-. eexists. split; [done|].
          rewrite !length_app. simpl. lia.
      + rewrite Hd', app_nil_r. by exists l.
    - intros key idx Hin. rewrite Hd, Hyo.
      exists []. split; [by eapply info_dict0_lookup|done]. }
  intros d ys key idx Hdin Hyin Hkey. apply items_outputs in Hdin, Hyin.
  destruct Hdin as [Hx|[Hx|[Hx|[Hx|[Hx|[Hx _]]]]]]; try discriminate.
  destruct Hyin as [Hy|[Hy|[Hy|[Hy|[Hy|[Hy _]]]]]]; try discriminate.
  injection Hx as ->. injection Hy as ->. by eapply Hinv.
Qed.

Lemma diagnostics_aligned_witness :
  let a := sample_args [0; 4; 10]%float true false None [] None false in
  match (odeintr exact_solver 5 a world0).1 with
  | Ok r =>
      ∀ d ys, InfoDict d ∈ items r -> Trajectory ys ∈ items r ->
              ∃ l, d !! "nst" = Some (VList l) ∧ S (length l) = length ys
  | _ => False
  end.
Proof.
  intros a.
  destruct (odeintr exact_solver 5 a world0) as [[r| |] w'] eqn:H;
    [|vm_compute in H; discriminate..].
  intros d ys Hd Hy.
  apply (diagnostics_aligned exact_solver 5 a r world0 w' eq_refl H d ys
           "nst" 10%nat Hd Hy).
  apply elem_of_app. right. left.
Defined.

(** X12: the root events lie on the trace: the root times are a
    subsequence of [tout] and the root states a subsequence of the rows of
    the trajectory. *)
Theorem root_events_lie_on_trace
    (dlsodar : list call -> call -> reply) (fuel : nat) (a : odeintr_args)
    (r : pyresult) (w w' : world) :
  odeintr dlsodar fuel a w = (Ok r, w') ->
  (∀ rt ts, RootTimes rt ∈ items r -> TimeTrace ts ∈ items r ->
            rt `sublist_of` ts)
  ∧ (∀ ry ys, RootStates ry ∈ items r -> Trajectory ys ∈ items r ->
              ry `sublist_of` ys).
Proof.
  intros H. apply odeintr_inv in H as (e & st & st' & Hsetup & Hloop & ->).
  apply setup_inv in Hsetup
    as (_ & _ & _ & _ & _ & _ & _ & _ & _ & _ & _ & _ & Htr & Hyr & _).
  assert (t_root st' `sublist_of` tout st'
          ∧ y_root st' `sublist_of` yout st') as [Ht Hy].
  { apply (loop_invariant dlsodar
             (λ s, t_root s `sublist_of` tout s
                   ∧ y_root s `sublist_of` yout s) e) in Hloop;
      [done| |rewrite Htr, Hyr; split; apply sublist_nil_l].
    intros s r0 w0 w0' [H1 H2] Hstep.
    apply step_effect in Hstep
      as (rep & tw & _ & _ & Hto' & Hyo' & _ & _ & _ & _ & _ & _ & Hroot).
    rewrite Hto', Hyo'. clear Hto' Hyo'.
    destruct (r_istate rep =? 3) eqn:H3'.
    - destruct Hroot as (i & flag & _ & _ & _ & -> & -> & _).
      rewrite (wanted_root _ _ _ H3'). split; by apply sublist_app.
    - destruct Hroot as (_ & -> & -> & _). split; by apply sublist_inserts_r. }
  split.
  - intros rt ts Hr Hts. apply items_outputs in Hr, Hts.
    destruct Hr as [Hr|[Hr|[Hr|[Hr|[Hr|[Hr _]]]]]]; try discriminate.
    destruct Hts as [Hx|[Hx|[Hx|[Hx|[Hx|[Hx _]]]]]]; try discriminate.
    injection Hr as ->. by injection Hx as ->.
  - intros ry ys Hr Hys. apply items_outputs in Hr, Hys.
    destruct Hr as [Hr|[Hr|[Hr|[Hr|[Hr|[Hr _]]]]]]; try discriminate.
    destruct Hys as [Hx|[Hx|[Hx|[Hx|[Hx|[Hx _]]]]]]; try discriminate.
    injection Hr as ->. by injection Hx as ->.
Qed.

Lemma root_events_lie_on_trace_witness :
  let a := sample_args [0; 4; 10]%float false false None [0] (Some "g")
             false in
  match (odeintr (scripted [landing 3 [1]]) 5 a world0).1 with
  | Ok r =>
      ∀ rt ts, RootTimes rt ∈ items r -> TimeTrace ts ∈ items r ->
               rt `sublist_of` ts
  | _ => False
  end.
Proof.
  intros a.
  destruct (odeintr (scripted [landing 3 [1]]) 5 a world0) as [[r| |] w']
    eqn:H; [|vm_compute in H; discriminate..].
  exact (proj1 (root_events_lie_on_trace _ _ _ _ _ _ H)).
Defined.

(** ** How a run ends *)

(** X13: every recorded root index is an index into [root_term], and only
    the last recorded root can be one whose flag is 1: a terminating root
    ends the run. *)
Theorem root_indices_valid
    (dlsodar : list call -> call -> reply) (fuel : nat) (a : odeintr_args)
    (r : pyresult) (w w' : world) :
  odeintr dlsodar fuel a w = (Ok r, w') ->
  ∀ ri, RootIndices ri ∈ items r ->
    Forall (λ i, (i < length (root_term a))%nat) ri
    ∧ ∀ pre i, ri = pre ++ [i] ->
               Forall (λ j, root_term a !! j ≠ Some 1) pre.
Proof.
  intros H. apply odeintr_inv in H as (e & st & st' & Hsetup & Hloop & ->).
  apply setup_inv in Hsetup
    as (_ & Hargs & _ & _ & _ & _ & _ & _ & _ & _ & _ & _ & _ & _ & Hir & _).
  set (valid := λ i : nat, (i < length (root_term a))%nat).
  set (goes_on := λ j : nat, root_term a !! j ≠ Some 1).
  assert (Forall valid (i_root st')
          ∧ ∀ pre i, i_root st' = pre ++ [i] -> Forall goes_on pre)
    as Hfinal.
  { refine (loop_exit_invariant dlsodar
              (λ s, Forall valid (i_root s) ∧ Forall goes_on (i_root s))
              (λ s, Forall valid (i_root s)
                    ∧ ∀ pre i, i_root s = pre ++ [i] -> Forall goes_on pre)
              e _ _ fuel st st' w w' _ Hloop).
    - intros s [Hv Hg] _. split; [done|]. intros pre i Heq.
      rewrite Heq in Hg. by apply Forall_app in Hg as [Hg _].
    - intros s r0 w0 w0' [Hv Hg] Hstep.
      apply step_effect in Hstep
        as (rep & tw & _ & _ & _ & _ & _ & _ & _ & _ & _ & _ & Hroot).
      destruct (r_istate rep =? 3).
      + destruct Hroot as (i & flag & _ & Hflag & -> & _ & _ & ->).
        rewrite Hargs in Hflag.
        assert (valid i) as Hi by (by apply lookup_lt_Some in Hflag).
        destruct (Z.eqb_spec flag 1) as [->|Hne].
        * split; [apply Forall_app; split; [done|by constructor]|].
          intros pre i' Heq. by apply app_inj_tail in Heq as [<- _].
        * split; apply Forall_app; (split; [done|]); constructor;
            try done. unfold goes_on. rewrite Hflag. congruence.
      + destruct Hroot as (-> & _ & _ & ->).
        destruct (0 <=? r_istate rep); [done|]. split; [done|].
        intros pre i Heq. rewrite Heq in Hg.
        by apply Forall_app in Hg as [Hg _].
    - rewrite Hir. by split. }
  intros ri Hri. apply items_outputs in Hri.
  destruct Hri as [Hx|[Hx|[Hx|[Hx|[Hx|[Hx _]]]]]]; try discriminate.
  by injection Hx as ->.
Qed.

Lemma root_indices_valid_witness :
  let a := sample_args [0; 4; 10]%float false false None [0; 1] (Some "g")
             false in
  match (odeintr (scripted [landing 3 [1; 0]; landing 3 [0; 1]]) 5 a
           world0).1 with
  | Ok r =>
      ∀ ri, RootIndices ri ∈ items r ->
        Forall (λ i, (i < 2)%nat) ri
        ∧ ∀ pre i, ri = pre ++ [i] ->
                   Forall (λ j, [0; 1] !! j ≠ Some 1) pre
  | _ => False
  end.
Proof.
  intros a.
  destruct (odeintr (scripted [landing 3 [1; 0]; landing 3 [0; 1]]) 5 a
              world0) as [[r| |] w'] eqn:H;
    [|vm_compute in H; discriminate..].
  exact (root_indices_valid _ _ _ _ _ _ H).
Defined.

(** X14: if the solver never fails and no root is flagged as terminating,
    a run over at least two times that returns has walked through all of
    [t], and the last time of its trace [==] the last requested time. *)
Theorem run_ends_at_last_time
    (dlsodar : list call -> call -> reply) (fuel : nat) (a : odeintr_args)
    (r : pyresult) (w w' : world) :
  (∀ h c, 0 <= r_istate (dlsodar h c)) ->
  Forall (λ flag, flag ≠ 1) (root_term a) ->
  (2 <= length (t a))%nat ->
  odeintr dlsodar fuel a w = (Ok r, w') ->
  ∀ ts, TimeTrace ts ∈ items r ->
    ∃ x tl, last ts = Some x ∧ last (t a) = Some tl ∧ feq x tl = true.
Proof.
  intros Hsolver Hflags Hlen H.
  apply odeintr_inv in H as (e & st & st' & Hsetup & Hloop & ->).
  apply setup_inv in Hsetup
    as (_ & Hargs & _ & _ & _ & _ & Hti & _).
  set (ended := λ s : locals,
         (2 <= tindex s)%nat -> tindex s = length (t a) ->
         ∃ x tl, last (tout s) = Some x ∧ last (t a) = Some tl
                 ∧ feq x tl = true).
  assert ((tindex st' <= length (t a))%nat ∧ ended st'
          ∧ (length (t a) <= tindex st')%nat) as (Hle & Hend & Hge).
  { refine (loop_exit_invariant dlsodar
              (λ s, (tindex s <= length (t a))%nat ∧ ended s)
              (λ s, (tindex s <= length (t a))%nat ∧ ended s
                    ∧ (length (t a) <= tindex s)%nat)
              e _ _ fuel st st' w w' _ Hloop).
    - intros s [H1 H2] Hex. rewrite Hargs in Hex. done.
    - intros s r0 w0 w0' [H1 H2] Hstep.
      apply step_effect in Hstep
        as (rep & tw & Htw & (c & -> & _) & Hto' & _ & Hti' & _ & _ & _ & _
            & _ & Hroot).
      rewrite Hargs in Htw.
      assert ((0 <=? r_istate (dlsodar (calls w0) c)) = true) as Hok
        by (apply Z.leb_le, Hsolver).
      rewrite Hok in *. cbn [andb] in *.
      assert (r0.1 = Continue) as ->.
      { destruct (_ =? 3).
        - destruct Hroot as (i & flag & _ & Hflag & -> & _).
          rewrite Hargs in Hflag.
          pose proof (Forall_lookup_1 _ _ _ _ Hflags Hflag) as Hne.
          by destruct (Z.eqb_spec flag 1).
        - by destruct Hroot as [-> _]. }
      pose proof (lookup_lt_Some _ _ _ Htw) as Hlt.
      rewrite Hti'. destruct (feq _ tw) eqn:Hfeq.
      + split; [lia|]. intros _ Hlast. exists (r_t (dlsodar (calls w0) c)), tw.
        rewrite Hto'. unfold wanted. rewrite Hfeq. simpl.
        rewrite last_snoc, last_lookup.
        replace (pred (length (t a))) with (tindex s) by lia. done.
      + split; [lia|]. intros _ Hlast. lia.
    - rewrite Hti. split; [lia|]. intros Hbad. lia. }
  intros ts Hts. apply items_outputs in Hts.
  destruct Hts as [Hx|[Hx|[Hx|[Hx|[Hx|[Hx _]]]]]]; try discriminate.
  injection Hx as ->. apply Hend; lia.
Qed.

Lemma run_ends_at_last_time_witness :
  let a := sample_args [0; 4; 10]%float false false None [] None true in
  match (odeintr exact_solver 5 a world0).1 with
  | Ok r =>
      ∀ ts, TimeTrace ts ∈ items r ->
        ∃ x tl, last ts = Some x ∧ Some 10%float = Some tl ∧ feq x tl = true
  | _ => False
  end.
Proof.
  intros a.
  destruct (odeintr exact_solver 5 a world0) as [[r| |] w'] eqn:H;
    [|vm_compute in H; discriminate..].
  assert (∀ h c, 0 <= r_istate (exact_solver h c)) as H1
    by (intros; apply Z.leb_le; reflexivity).
  assert (Forall (λ flag, flag ≠ 1) (root_term a)) as H2 by constructor.
  assert (2 <= length (t a))%nat as H3 by (repeat constructor).
  exact (run_ends_at_last_time exact_solver 5 a r world0 w' H1 H2 H3 H).
Defined.

(** X15: outside [int_pts] mode, with a solver that always returns status
    2, a call that returns has one row per requested time, and each time of
    its trace after the first [==] the requested time at the same position. *)
Theorem plain_run_matches_requested_times
    (dlsodar : list call -> call -> reply) (fuel : nat) (a : odeintr_args)
    (r : pyresult) (w w' : world) :
  succeeds dlsodar ->
  int_pts a = false ->
  odeintr dlsodar fuel a w = (Ok r, w') ->
  (∀ ys, Trajectory ys ∈ items r -> length ys = length (t a))
  ∧ (∀ ts, TimeTrace ts ∈ items r ->
           Forall2 (λ x y, feq x y = true) (tail ts) (tail (t a))).
Proof.
  intros Hsolver Hint H.
  apply odeintr_inv in H as (e & st & st' & Hsetup & Hloop & ->).
  apply setup_inv in Hsetup
    as (_ & Hargs & _ & _ & Hmode & _ & Hti & _ & _ & Ht0 & Hto & Hyo & _).
  destruct (Hmode Hint) as [Hit _].
  set (I := λ s : locals,
         itask s ≠ 5 ∧ (1 <= tindex s <= length (t a))%nat
         ∧ length (yout s) = tindex s ∧ length (tout s) = tindex s
         ∧ Forall2 (λ x y, feq x y = true) (tail (tout s))
                   (take (pred (tindex s)) (tail (t a)))).
  assert (I st' ∧ (length (t a) <= tindex st')%nat)
    as ((_ & Hrange & Hly & Hlt & Hall) & Hge).
  { refine (loop_exit_invariant dlsodar I
              (λ s, I s ∧ (length (t a) <= tindex s)%nat)
              e _ _ fuel st st' w w' _ Hloop).
    - intros s HI Hex. rewrite Hargs in Hex. done.
    - intros s r0 w0 w0' (Hn5 & Hr & Hly & Hlt & Hall) Hstep.
      apply step_effect in Hstep
        as (rep & tw & Htw & (c & -> & _) & Hto' & Hyo' & Hti' & _ & _ & _
            & Hit' & _ & Hroot).
      rewrite Hargs in Htw. rewrite (Hsolver (calls w0) c) in *.
      cbn [Z.leb Z.eqb Z.compare Pos.compare Pos.compare_cont Pos.eqb andb]
        in *.
      destruct Hroot as (-> & _).
      unfold wanted in Hto', Hyo'. cbn [sync itask istate] in Hto', Hyo'.
      rewrite (Hsolver (calls w0) c) in Hto', Hyo'.
      apply Z.eqb_neq in Hn5 as Hn5'.
      rewrite Hn5' in Hto', Hyo'. rewrite !orb_false_r in Hto', Hyo'.
      pose proof (lookup_lt_Some _ _ _ Htw) as Hlt'.
      unfold I. rewrite Hto', Hyo', Hti'.
      split; [destruct Hit' as [->| ->]; [done|discriminate]|].
      destruct (feq _ tw) eqn:Hfeq.
      + split; [lia|]. rewrite !length_app. simpl.
        split; [lia|]. split; [lia|].
        destruct (tout s) as [|x0 xs] eqn:Hxs; [simpl in Hlt; lia|].
        simpl. simpl in Hall.
        destruct (tindex s) as [|n] eqn:Hn; [lia|]. simpl in *.
        rewrite (take_S_r _ _ tw) by (by rewrite lookup_tail).
        apply Forall2_app; [done|]. by constructor.
      + rewrite !app_nil_r. done.
    - unfold I. rewrite Hit, Hti, Hto, Hyo. simpl.
      apply lookup_lt_Some in Ht0. rewrite Hargs in Ht0.
      split; [by destruct (truthy (tcrit a))|]. split; [lia|].
      split; [done|]. split; [done|]. rewrite take_0. constructor. }
  assert (tindex st' = length (t a)) as Heq by lia.
  rewrite Heq in *.
  rewrite take_ge in Hall by (destruct (t a); simpl; lia).
  split; intros l Hl; apply items_outputs in Hl;
    destruct Hl as [Hl|[Hl|[Hl|[Hl|[Hl|[Hl _]]]]]]; try discriminate;
    by injection Hl as ->.
Qed.

Lemma plain_run_matches_requested_times_witness :
  let a := sample_args [0; 4; 10]%float false false (Some [9%float]) [0]
             (Some "g") false in
  match (odeintr exact_solver 5 a world0).1 with
  | Ok r =>
      (∀ ys, Trajectory ys ∈ items r -> length ys = 3%nat)
      ∧ (∀ ts, TimeTrace ts ∈ items r ->
               Forall2 (λ x y, feq x y = true) (tail ts) [4; 10]%float)
  | _ => False
  end.
Proof.
  intros a.
  destruct (odeintr exact_solver 5 a world0) as [[r| |] w'] eqn:H;
    [|vm_compute in H; discriminate..].
  assert (succeeds exact_solver) as H1 by (intros h c; reflexivity).
  exact (plain_run_matches_requested_times exact_solver 5 a r world0 w' H1
           eq_refl H).
Defined.

(** ** A solver that never arrives *)

Section Stalled.

Variable dlsodar : list call -> call -> reply.

(** In task mode 1, without [full_output], an iteration on a reply with
    status 2 at a time that [==] tells apart from the requested one changes
    nothing but the status and work arrays it copies back. *)
Lemma stalled_step e st w :
  stalls dlsodar (e_args e) ->
  full_output (e_args e) = false ->
  itask st = 1 ->
  (tindex st < length (t (e_args e)))%nat ->
  ∃ rep w', step dlsodar e st w = (Ok (Continue, sync st rep), w').
Proof.
  intros Hstall Hfull Hit Hlt.
  destruct (lookup_lt_is_Some_2 _ _ Hlt) as [tw Htw].
  set (c := {| c_f := usefunc e; c_y0 := y0 (e_args e); c_t0 := t0 e;
               c_tout := tw; c_itol := itol e; c_rtol := rtol (e_args e);
               c_atol := atol (e_args e); c_itask := itask st;
               c_istate := istate st; c_rwork := rwork st;
               c_iwork := iwork st; c_jac := usejac e; c_jt := jt e;
               c_g := useg e; c_ng := ng e |}).
  set (rep := dlsodar (calls w) c).
  destruct (Hstall (calls w) c) as [H2 Hmiss]. fold rep in H2, Hmiss.
  assert (feq (r_t rep) tw = false) as Hfeq.
  { eapply (Forall_lookup_1 _ _ _ _ Hmiss). exact Htw. }
  assert (request dlsodar e st w
          = (Ok rep, {| console := console w; calls := calls w ++ [c] |}))
    as Hreq.
  { unfold request. cbv zeta.
    erewrite bind_ok; [|by apply getitem_ok].
    replace ((itask st =? 4) || (itask st =? 5)) with false
      by (by rewrite Hit).
    reflexivity. }
  assert (∀ w0, bookkeep e (sync st rep) (r_y rep) (r_t rep) w0
                = (Ok (sync st rep), w0)) as Hbk.
  { intros w0. unfold bookkeep. cbv zeta. cbn [sync tindex itask istate].
    erewrite bind_ok; [|by apply getitem_ok].
    rewrite Hfeq, Hit, H2. cbn [Z.eqb orb].
    erewrite bind_ok; [|reflexivity]. cbn [sync tindex].
    erewrite bind_ok; [|by apply getitem_ok]. rewrite Hfeq.
    unfold reached_critical. cbn [sync itask]. rewrite Hit. reflexivity. }
  exists rep. eexists. unfold step. erewrite bind_ok; [|exact Hreq].
  erewrite (react_success e st rep "Integration successful.");
    [|rewrite H2; lia|by rewrite H2|exact Hbk].
  cbn [sync istate]. rewrite H2. reflexivity.
Qed.

Lemma stalled_loop e fuel :
  stalls dlsodar (e_args e) ->
  full_output (e_args e) = false ->
  ∀ st w,
    itask st = 1 ->
    (tindex st < length (t (e_args e)))%nat ->
    ∃ w', loop dlsodar fuel e st w = (OutOfFuel, w').
Proof.
  intros Hstall Hfull. induction fuel as [|fuel IH]; intros st w Hit Hlt;
    simpl; apply Nat.ltb_lt in Hlt as Hlt'; rewrite Hlt'.
  - by eexists.
  - destruct (stalled_step e st w Hstall Hfull Hit Hlt) as (rep & w1 & Hstep).
    unfold bind at 1. rewrite Hstep. cbn [fst snd].
    apply IH; done.
Qed.

End Stalled.

(** X16: the driver has no iteration bound of its own.  In a plain call (no
    [tcrit], no [int_pts], no [full_output]) over at least two times, if
    the solver keeps returning status 2 at times that [==] tells apart from
    every requested time, the loop never ends: however many iterations it
    is given, it is still running. *)
Theorem stalled_solver_never_returns
    (dlsodar : list call -> call -> reply) (a : odeintr_args) (w : world) :
  config_passes a = true ->
  (2 <= length (t a))%nat ->
  int_pts a = false ->
  truthy (tcrit a) = false ->
  full_output a = false ->
  stalls dlsodar a ->
  ∀ fuel, (odeintr dlsodar fuel a w).1 = OutOfFuel.
Proof.
  intros Hcfg Hlen Hint Htc Hfull Hstall fuel.
  destruct (setup_run a w Hcfg) as (rw & iw & mode & _ & _ & _ & _ & Hm & Hs).
  apply task_mode_inv in Hm as (_ & Hmode & _).
  rewrite (Hmode Hint), Htc in Hs. cbn [fst snd] in Hs.
  destruct (lookup_lt_is_Some_2 (t a) 0 ltac:(lia)) as [t0 Ht0].
  erewrite bind_ok in Hs; [|by apply getitem_ok].
  assert (∃ e st, setup a w = (Ok (e, st), w) ∧ e_args e = a
                  ∧ itask st = 1 ∧ tindex st = 1%nat)
    as (e & st & Hsetup & Hargs & Hit & Hti) by (by eexists _, _).
  rewrite <- Hargs in Hstall, Hfull, Hlen.
  destruct (stalled_loop dlsodar e fuel Hstall Hfull st w Hit)
    as [w' Hloop]; [lia|].
  unfold odeintr. erewrite bind_ok; [|exact Hsetup]. cbn [fst snd].
  unfold bind. by rewrite Hloop.
Qed.

Lemma stalled_solver_never_returns_witness :
  (odeintr stalling_solver 40
     (sample_args [0; 4; 10]%float false false None [] None false)
     world0).1
  = OutOfFuel.
Proof.
  apply stalled_solver_never_returns; try reflexivity.
  - repeat constructor.
  - intros h c. split; [reflexivity|]. repeat constructor.
Defined.

(** ** What an iteration prints *)

(** X17: an iteration that returns calls nothing and prints exactly this:
    on a failure status the message of the code and the hint line; otherwise
    the message of the status when [printmessg] is set; and after that, on
    status 3, the "Multiple roots" line when the number of indicators equal
    to 1 is not one. *)
Theorem iteration_prints
    (e : env) (st : locals) (rep : reply) (r : ctrl * locals)
    (w w' : world) :
  react e st rep w = (Ok r, w') ->
  calls w' = calls w
  ∧ console w'
    = console w
      ++ (if r_istate rep <? 0
          then option_list (assoc (r_istate rep) _msgs)
               ++ [run_with_full_output]
          else if printmessg (e_args e)
               then option_list (assoc (r_istate rep) _msgs)
               else [])
      ++ (if (r_istate rep =? 3) && negb (count1 (r_jroot rep) =? 1)%nat
          then [multiple_roots (r_jroot rep)]
          else []).
Proof.
  intros H. destruct (Z.ltb_spec (r_istate rep) 0) as [Hneg|Hpos].
  - assert ((r_istate rep =? 3) = false) as -> by (apply Z.eqb_neq; lia).
    destruct (assoc (r_istate rep) _msgs) as [m|] eqn:Hm.
    + rewrite (react_failure _ _ _ _ _ Hneg Hm) in H.
      inversion H; subst. simpl. by rewrite ?app_nil_r.
    + unfold react in H. cbv zeta in H. cbn [sync istate] in H.
      destruct (Z.ltb_spec (r_istate rep) 0) as [_|]; [|lia].
      unfold bind, msg_of in H. rewrite Hm in H. discriminate.
  - unfold react in H. cbv zeta in H. cbn [sync istate] in H.
    destruct (Z.ltb_spec (r_istate rep) 0) as [|_]; [lia|].
    apply bind_inv_ok in H as ([] & wp & Hp & H).
    apply bind_inv_ok in H as (st' & w1 & Hbk & H).
    destruct (bookkeep_inv _ _ _ _ _ _ _ Hbk)
      as (-> & tw & _ & _ & _ & _ & _ & _ & His & _).
    rewrite His in H. cbn [sync istate] in H.
    assert (calls wp = calls w
            ∧ console wp
              = console w
                ++ (if printmessg (e_args e)
                    then option_list (assoc (r_istate rep) _msgs) else []))
      as [Hcp Hop].
    { unfold when in Hp. destruct (printmessg (e_args e)).
      - apply bind_inv_ok in Hp as (m & w2 & Hm & Hp).
        apply msg_of_inv in Hm as [Hm ->]. rewrite Hm.
        by inversion Hp.
      - inversion Hp; subst. by rewrite app_nil_r. }
    destruct (r_istate rep =? 3).
    + apply root_found_inv in H as (i & flag & _ & _ & _ & ->).
      unfold warned. cbn [calls console andb]. split; [done|].
      rewrite Hop, <- app_assoc. f_equal. f_equal.
      by destruct (count1 (r_jroot rep) =? 1)%nat.
    + inversion H; subst. split; [done|]. by rewrite Hop, app_nil_r.
Qed.

Lemma iteration_prints_witness :
  let e := sample_env
             (sample_args [0; 4; 10]%float false true None [0; 0]
                (Some "g") false) None in
  match react e (sample_locals 1) (sample_reply 3 3 [1; 1]) world0 with
  | (Ok r, w') =>
      console w'
      = ["Integration successful. Root found.";
         "Multiple roots found at a single point!?! jroot is [1, 1]"]
  | _ => False
  end.
Proof.
  intros e.
  destruct (react e (sample_locals 1) (sample_reply 3 3 [1; 1]) world0)
    as [[r| |] w'] eqn:H; [|vm_compute in H; discriminate..].
  exact (proj2 (iteration_prints _ _ _ _ _ _ H)).
Defined.

(** ** What the next call is handed *)

(** X18: the solver's own state is threaded through untouched.  After an
    iteration that returns, the next request passes the status the solver
    just returned, the integer work array it left, and its real work array
    with at most slot 0 (the critical time) rewritten. *)
Theorem next_call_gets_solver_state
    (dlsodar : list call -> call -> reply) (e : env) (st : locals)
    (r : ctrl * locals) (rep2 : reply) (w w' w'' : world) :
  step dlsodar e st w = (Ok r, w') ->
  request dlsodar e r.2 w' = (Ok rep2, w'') ->
  ∃ c1 c2,
    calls w'' = calls w ++ [c1; c2]
    ∧ let rep1 := dlsodar (calls w) c1 in
      c_istate c2 = r_istate rep1
      ∧ c_iwork c2 = r_iwork rep1
      ∧ length (c_rwork c2) = length (r_rwork rep1)
      ∧ ∀ i, (0 < i)%nat -> c_rwork c2 !! i = r_rwork rep1 !! i.
Proof.
  intros Hstep Hreq.
  apply step_effect in Hstep
    as (rep & tw & _ & (c1 & -> & Hc1) & _ & _ & _ & His & Hrw & Hiw & _).
  apply request_call in Hreq
    as (c2 & tw2 & Hc2 & _ & _ & _ & _ & His2 & Hiw2 & Hp).
  exists c1, c2. rewrite Hc2, Hc1, <- app_assoc. split; [done|].
  cbv zeta. rewrite His2, Hiw2, His, Hiw. split; [done|]. split; [done|].
  destruct (pending_critical e r.2) as [crit|].
  - destruct Hp as (_ & -> & _). rewrite length_insert, Hrw.
    split; [done|]. intros i Hi. by rewrite list_lookup_insert_ne by lia.
  - destruct Hp as [_ ->]. by rewrite Hrw.
Qed.

Lemma next_call_gets_solver_state_witness :
  let e := sample_env
             (sample_args [0; 4; 10]%float false false None [] None false)
             None in
  match step exact_solver e (sample_locals 1) world0 with
  | (Ok r, w') =>
      match request exact_solver e r.2 w' with
      | (Ok rep2, w'') =>
          ∃ c1 c2, calls w'' = [c1; c2] ∧ c_istate c2 = 2
      | _ => False
      end
  | _ => False
  end.
Proof.
  intros e.
  destruct (step exact_solver e (sample_locals 1) world0)
    as [[r| |] w'] eqn:H; [|vm_compute in H; discriminate..].
  destruct (request exact_solver e r.2 w') as [[rep2| |] w''] eqn:H2.
  - destruct (next_call_gets_solver_state exact_solver e (sample_locals 1)
                r rep2 world0 w' w'' H H2) as (c1 & c2 & Hc & His & _).
    exists c1, c2. split; [exact Hc|exact His].
  - vm_compute in H. injection H as <- <-. vm_compute in H2. discriminate.
  - vm_compute in H. injection H as <- <-. vm_compute in H2. discriminate.
Defined.

(** ** Intermediate output *)

Section Intermediate.

Variable dlsodar : list call -> call -> reply.

(** Induction on the loop for a property of the state and the world. *)
Lemma loop_world_invariant (I : locals -> world -> Prop) e :
  (∀ st r w w',
     I st w -> step dlsodar e st w = (Ok r, w') -> I r.2 w') ->
  ∀ fuel st st' w w',
    I st w -> loop dlsodar fuel e st w = (Ok st', w') -> I st' w'.
Proof.
  intros Hstep. induction fuel as [|fuel IH]; intros st st' w w' HI H;
    simpl in H.
  - destruct (_ <? _)%nat; [discriminate|]. by inversion H; subst.
  - destruct (_ <? _)%nat; [|by inversion H; subst].
    apply bind_inv_ok in H as (r & w1 & Hs & H).
    pose proof (Hstep _ _ _ _ HI Hs) as HI'.
    destruct r as [[|] st1]; cbn [fst snd] in *.
    + by eapply IH.
    + by inversion H; subst.
Qed.

(** With [int_pts], while requested times are left, the loop is on track in
    task mode 5, and every iteration that does not fail appends a row. *)
Lemma int_pts_step e st r w w' :
  (∀ h c, 0 <= r_istate (dlsodar h c)) ->
  on_track e st ->
  itask st = 5 ∨ (length (t (e_args e)) <= tindex st)%nat ->
  step dlsodar e st w = (Ok r, w') ->
  on_track e r.2
  ∧ (itask r.2 = 5 ∨ (length (t (e_args e)) <= tindex r.2)%nat)
  ∧ length (yout r.2) = S (length (yout st))
  ∧ length (calls w') = S (length (calls w)).
Proof.
  intros Hsolver Htrack Hmode Hstep.
  pose proof Hstep as Hstep'. unfold step in Hstep'.
  apply bind_inv_ok in Hstep' as (rep & w1 & Hreq & Hreact).
  destruct (request_inv _ _ _ _ _ _ Hreq) as (Hlt & _).
  destruct Hmode as [H5|Hge]; [|lia].
  split; [by eapply react_on_track|].
  split; [by eapply react_keeps_mode5|].
  apply step_effect in Hstep
    as (rep' & tw & _ & (c & -> & Hc) & _ & Hyo & _).
  assert ((0 <=? r_istate (dlsodar (calls w) c)) = true) as Hok
    by (apply Z.leb_le, Hsolver).
  rewrite Hok in Hyo. unfold wanted in Hyo. cbn [sync itask andb] in Hyo.
  rewrite H5 in Hyo. cbn [Z.eqb Pos.eqb] in Hyo.
  rewrite orb_true_r in Hyo. cbn [orb] in Hyo.
  rewrite Hyo, Hc, !length_app. simpl. lia.
Qed.

End Intermediate.

(** X19: with [int_pts] every step of the integrator is output: if the
    solver never fails, a call that returns has one row for the initial
    state and one row for each solver call it made. *)
Theorem int_pts_outputs_every_step
    (dlsodar : list call -> call -> reply) (fuel : nat) (a : odeintr_args)
    (r : pyresult) (w w' : world) :
  (∀ h c, 0 <= r_istate (dlsodar h c)) ->
  int_pts a = true ->
  odeintr dlsodar fuel a w = (Ok r, w') ->
  ∀ ys, Trajectory ys ∈ items r ->
    (length ys + length (calls w) = S (length (calls w')))%nat.
Proof.
  intros Hsolver Hint H.
  apply odeintr_inv in H as (e & st & st' & Hsetup & Hloop & ->).
  pose proof (setup_on_track _ _ _ _ _ Hsetup) as Htrack.
  apply setup_inv in Hsetup
    as (_ & _ & _ & _ & _ & Hmode & _ & _ & _ & _ & _ & Hyo & _).
  destruct (Hmode Hint) as [H5 _].
  assert (on_track e st'
          ∧ (itask st' = 5 ∨ (length (t (e_args e)) <= tindex st')%nat)
          ∧ (length (yout st') + length (calls w)
             = S (length (calls w')))%nat)
    as (_ & _ & Hrows).
  { refine (loop_world_invariant dlsodar
              (λ s w0, on_track e s
                       ∧ (itask s = 5
                          ∨ (length (t (e_args e)) <= tindex s)%nat)
                       ∧ (length (yout s) + length (calls w)
                          = S (length (calls w0)))%nat)
              e _ fuel st st' w w' _ Hloop).
    - intros s r0 w0 w0' (Ht & Hm & Hn) Hstep.
      destruct (int_pts_step dlsodar e s r0 w0 w0' Hsolver Ht Hm Hstep)
        as (Ht' & Hm' & Hy' & Hc').
      split; [done|]. split; [done|]. lia.
    - split; [done|]. split; [by left|]. rewrite Hyo. simpl. lia. }
  intros ys Hys. apply items_outputs in Hys.
  destruct Hys as [Hx|[Hx|[Hx|[Hx|[Hx|[Hx _]]]]]]; try discriminate.
  by injection Hx as ->.
Qed.

Lemma int_pts_outputs_every_step_witness :
  let a := sample_args [0; 4; 10]%float false false None [] None true in
  let dlsodar :=
    scripted [λ c, {| r_y := [3%float]; r_t := 1; r_istate := 2;
                      r_jroot := []; r_rwork := c_rwork c;
                      r_iwork := c_iwork c |}] in
  match odeintr dlsodar 5 a world0 with
  | (Ok r, w') =>
      ∀ ys, Trajectory ys ∈ items r ->
            (length ys + 0 = S (length (calls w')))%nat
  | _ => False
  end.
Proof.
  intros a dlsodar.
  destruct (odeintr dlsodar 5 a world0) as [[r| |] w'] eqn:H;
    [|vm_compute in H; discriminate..].
  assert (∀ h c, 0 <= r_istate (dlsodar h c)) as H1.
  { intros h c. unfold dlsodar, scripted.
    destruct (_ !! length h) as [f|] eqn:Hf; [|apply Z.leb_le; reflexivity].
    destruct (length h) as [|n]; [|by destruct n].
    injection Hf as <-. apply Z.leb_le. reflexivity. }
  exact (int_pts_outputs_every_step dlsodar 5 a r world0 w' H1 eq_refl H).
Defined.
